(** * pymarshaler: the argument-builder delegates

    A shallow embedding of [pymarshaler/arg_delegates.py].  Every delegate
    class of the module is a Rocq module of the same name holding its
    [resolve]; the dispatcher that a delegate receives as [func], the
    introspection helper [get_init_params] and the constructors of the
    builtin types are parameters, as they are imported in the source. *)

From Stdlib Require Import List String Ascii ZArith Bool Lia Permutation.
Import ListNotations.
Local Open Scope string_scope.
Local Open Scope Z_scope.
Local Open Scope list_scope.

(** ** Python values *)

(** A type object: its [__name__] and, for a subscripted generic such as
    [typing.List[int]], its [__args__]. *)
Unset Elimination Schemes.

Inductive type_desc : Type :=
| TyCon (name : string) (args : list type_desc).

Definition ty_name (t : type_desc) : string :=
  match t with TyCon n _ => n end.

Definition ty_args (t : type_desc) : list type_desc :=
  match t with TyCon _ a => a end.

(** The objects the delegates receive and return.  A [set] and a [dict]
    carry their elements in iteration order.  An enum member is known by its
    class and its name; an instance of a user-defined class by its identity
    [oid].  Floating-point numbers are left out. *)
Inductive value : Type :=
| VNone
| VBool (b : bool)
| VInt (n : Z)
| VStr (s : string)
| VList (xs : list value)
| VTuple (xs : list value)
| VSet (xs : list value)
| VDict (kvs : list (value * value))
| VEnum (cls : string) (member : string) (val : value)
| VDateTime (instant : Z)
| VObject (oid : nat) (cls : string) (attrs : list (value * value)).

Set Elimination Schemes.

(** A Python [dict] (and the result of [dict.items()]): the entries in
    insertion order. *)
Definition dict : Type := list (value * value).

(** Structural induction through the nested lists. *)
Section ValueInd.
Variable P : value -> Prop.
Hypothesis HNone : P VNone.
Hypothesis HBool : forall b, P (VBool b).
Hypothesis HInt : forall n, P (VInt n).
Hypothesis HStr : forall s, P (VStr s).
Hypothesis HList : forall xs, (forall x, In x xs -> P x) -> P (VList xs).
Hypothesis HTuple : forall xs, (forall x, In x xs -> P x) -> P (VTuple xs).
Hypothesis HSet : forall xs, (forall x, In x xs -> P x) -> P (VSet xs).
Hypothesis HDict : forall kvs,
    (forall k v, In (k, v) kvs -> P k /\ P v) -> P (VDict kvs).
Hypothesis HEnum : forall c m v, P v -> P (VEnum c m v).
Hypothesis HDateTime : forall i, P (VDateTime i).
Hypothesis HObject : forall o c attrs,
    (forall k v, In (k, v) attrs -> P k /\ P v) -> P (VObject o c attrs).

Fixpoint value_nested_ind (v : value) : P v :=
    let elems :=
      fix elems (xs : list value) : forall x, In x xs -> P x :=
        match xs with
        | [] => fun _ H => match H with end
        | y :: ys => fun x H =>
            match H with
            | or_introl E => eq_ind y P (value_nested_ind y) x E
            | or_intror H' => elems ys x H'
            end
        end in
    let entries :=
      fix entries (kvs : list (value * value))
        : forall k v, In (k, v) kvs -> P k /\ P v :=
        match kvs with
        | [] => fun _ _ H => match H with end
        | (k0, v0) :: rest => fun k v H =>
            match H with
            | or_introl E =>
                eq_ind (k0, v0) (fun p => P (fst p) /\ P (snd p))
                  (conj (value_nested_ind k0) (value_nested_ind v0)) (k, v) E
            | or_intror H' => entries rest k v H'
            end
        end in
    match v with
    | VNone => HNone
    | VBool b => HBool b
    | VInt n => HInt n
    | VStr s => HStr s
    | VList xs => HList xs (elems xs)
    | VTuple xs => HTuple xs (elems xs)
    | VSet xs => HSet xs (elems xs)
    | VDict kvs => HDict kvs (entries kvs)
    | VEnum c m x => HEnum c m x (value_nested_ind x)
    | VDateTime i => HDateTime i
    | VObject o c attrs => HObject o c attrs (entries attrs)
    end.
End ValueInd.

(** ** Exceptions and results *)

(** An f-string is kept as its parts: the literal text and the objects that
    are formatted into it. *)
Inductive part : Type :=
| Lit (s : string)
| Fmt (v : value).

Record exn : Type := mkExn { exn_class : string; exn_msg : list part }.

Definition UnknownFieldError (msg : list part) : exn :=
  mkExn "UnknownFieldError" msg.

Definition TypeError (msg : list part) : exn := mkExn "TypeError" msg.
Definition ValueError (msg : list part) : exn := mkExn "ValueError" msg.
Definition IndexError (msg : list part) : exn := mkExn "IndexError" msg.
Definition KeyError (msg : list part) : exn := mkExn "KeyError" msg.
Definition AttributeError (msg : list part) : exn := mkExn "AttributeError" msg.

(** The double-quote character, as a string. *)
Definition dquote : string := String "034"%char EmptyString.

(** The outcome of a call: the returned object or the raised exception. *)
Inductive result (A : Type) : Type :=
| Ok (a : A)
| Raise (e : exn).
Arguments Ok {A} a.
Arguments Raise {A} e.

Definition bind {A B : Type} (m : result A) (k : A -> result B) : result B :=
  match m with
  | Ok a => k a
  | Raise e => Raise e
  end.

Notation "x <- m ;; k" := (bind m (fun x => k))
  (at level 61, m at next level, right associativity).

(** ** Equality and hashing *)

Section Forall2b.
Context {A B : Type}.
Variable f : A -> B -> bool.

Fixpoint forall2b (xs : list A) (ys : list B) : bool :=
  match xs, ys with
  | [], [] => true
  | x :: xs', y :: ys' => f x y && forall2b xs' ys'
  | _, _ => false
  end.
End Forall2b.

(** [a == b].  [bool] is a subclass of [int], so [True == 1]; sequences
    compare elementwise, sets and dicts regardless of order, enum members and
    instances by identity. *)
Fixpoint py_eq (a b : value) {struct a} : bool :=
  match a, b with
  | VNone, VNone => true
  | VBool x, VBool y => Bool.eqb x y
  | VBool x, VInt y => Z.b2z x =? y
  | VInt x, VBool y => x =? Z.b2z y
  | VInt x, VInt y => x =? y
  | VStr x, VStr y => String.eqb x y
  | VList xs, VList ys => forall2b py_eq xs ys
  | VTuple xs, VTuple ys => forall2b py_eq xs ys
  | VSet xs, VSet ys =>
      forallb (fun x => existsb (fun y => py_eq x y) ys) xs
      && forallb (fun y => existsb (fun x => py_eq x y) xs) ys
  | VDict xs, VDict ys =>
      forallb (fun p => existsb (fun q => py_eq (fst p) (fst q)
                                          && py_eq (snd p) (snd q)) ys) xs
      && forallb (fun q => existsb (fun p => py_eq (fst p) (fst q)
                                             && py_eq (snd p) (snd q)) xs) ys
  | VEnum c m _, VEnum c' m' _ => String.eqb c c' && String.eqb m m'
  | VDateTime i, VDateTime j => i =? j
  | VObject o _ _, VObject o' _ _ => Nat.eqb o o'
  | _, _ => false
  end.

(** [type(v).__name__] for the builtin containers that have no hash. *)
Fixpoint unhashable (v : value) : option string :=
  match v with
  | VList _ => Some "list"
  | VSet _ => Some "set"
  | VDict _ => Some "dict"
  | VTuple xs =>
      (fix first (xs : list value) : option string :=
         match xs with
         | [] => None
         | x :: xs' =>
             match unhashable x with
             | Some n => Some n
             | None => first xs'
             end
         end) xs
  | _ => None
  end.

Definition hashable (v : value) : bool :=
  match unhashable v with Some _ => false | None => true end.

(** [hash(v)], for its effect only: it raises on an unhashable object. *)
Definition py_hash (v : value) : result unit :=
  match unhashable v with
  | Some n => Raise (TypeError [Lit "unhashable type: '"; Lit n; Lit "'"])
  | None => Ok tt
  end.

(** ** Dictionaries and sets *)

(** The value stored under the first key equal to [k], if any. *)
Fixpoint dict_get (d : dict) (k : value) : option value :=
  match d with
  | [] => None
  | (k0, v0) :: d' => if py_eq k0 k then Some v0 else dict_get d' k
  end.

(** Storing under [k]: an entry whose key equals [k] keeps its key and its
    place and takes the new value; otherwise a new entry goes last. *)
Fixpoint dict_set (d : dict) (k v : value) : dict :=
  match d with
  | [] => [(k, v)]
  | (k0, v0) :: d' =>
      if py_eq k0 k then (k0, v) :: d' else (k0, v0) :: dict_set d' k v
  end.

(** [d.update(other)]. *)
Definition dict_update (d other : dict) : dict :=
  fold_left (fun acc kv => dict_set acc (fst kv) (snd kv)) other d.

(** [k in d]. *)
Definition dict_contains (d : dict) (k : value) : result bool :=
  _ <- py_hash k ;;
  Ok (match dict_get d k with Some _ => true | None => false end).

(** [d[k]]. *)
Definition dict_getitem (d : dict) (k : value) : result value :=
  _ <- py_hash k ;;
  match dict_get d k with
  | Some v => Ok v
  | None => Raise (KeyError [Fmt k])
  end.

(** [d[k] = v]. *)
Definition dict_setitem (d : dict) (k v : value) : result dict :=
  _ <- py_hash k ;;
  Ok (dict_set d k v).

(** [x in s] for the elements [s] of a set, once [x] is known hashable. *)
Definition set_mem (s : list value) (x : value) : bool :=
  existsb (fun y => py_eq y x) s.

(** [s.add(x)]. *)
Definition set_add (s : list value) (x : value) : result (list value) :=
  _ <- py_hash x ;;
  Ok (if set_mem s x then s else s ++ [x]).

(** [t[i]] on a tuple. *)
Definition tuple_index {A : Type} (t : list A) (i : nat) : result A :=
  match nth_error t i with
  | Some a => Ok a
  | None => Raise (IndexError [Lit "tuple index out of range"])
  end.

(** ** The delegates *)

Definition NotImplementedError (msg : list part) : exn :=
  mkExn "NotImplementedError" msg.

Module ArgBuilderDelegate.

Record t : Type := __init__ { cls : type_desc }.

Definition name (self : t) : string := ty_name (cls self).

Definition resolve (self : t) (data : value) : result value :=
  Raise (NotImplementedError
           [Lit "ArgBuilderDelegate"; Lit " has no implementation of resolve"]).

End ArgBuilderDelegate.

(** The dispatcher handed to the delegates that recurse:
    [func(type, raw value)]. *)
Definition dispatcher : Type := type_desc -> value -> result value.

Module FunctionalArgBuilderDelegate.

Record t : Type := __init__ { cls : type_desc; func : dispatcher }.

Definition resolve (self : t) (data : value) : result value :=
  Raise (NotImplementedError
           [Lit "FunctionalArgBuilderDelegate";
            Lit " has no implementation of resolve"]).

End FunctionalArgBuilderDelegate.

(** An [enum.Enum] subclass: its [__name__] and [__members__.values()] in
    declaration order.  A member is its name and its [value]. *)
Record enum_member : Type :=
  { member_name : string; member_value : value }.

Record enum_class : Type :=
  { enum_name : string; enum_members : list enum_member }.

(** The member object itself. *)
Definition member_object (cls : enum_class) (v : enum_member) : value :=
  VEnum (enum_name cls) (member_name v) (member_value v).

Definition invalid_enum_value (cls : enum_class) (data : value) : exn :=
  UnknownFieldError
    [Lit "Invalid value "; Fmt data; Lit " for enum "; Lit (enum_name cls)].

Module CachedEnumArgBuilderDelegate.

Record t : Type := mk { cls : enum_class; _table : dict }.

(** [{v.value: v for v in members}], from the entries gathered so far. *)
Fixpoint build_table (cls : enum_class) (members : list enum_member)
  (table : dict) : result dict :=
  match members with
  | [] => Ok table
  | v :: rest =>
      table' <- dict_setitem table (member_value v) (member_object cls v) ;;
      build_table cls rest table'
  end.

(** The constructor: what it prints, and the delegate or the exception. *)
Definition __init__ (cls : enum_class) : list (list part) * result t :=
  let members := enum_members cls in
  let printed :=
    if (List.length members <=? 20)%nat
    then [[Lit "WARNING: ENUM "; Lit dquote; Lit (enum_name cls); Lit dquote;
           Lit " HAS VERY FEW MEMBERS, IT MAY BE MORE EFFICIENT TO AVOID CACHING"]]
    else [] in
  (printed, table <- build_table cls members [] ;; Ok (mk cls table)).

Definition resolve (self : t) (data : value) : result value :=
  present <- dict_contains (_table self) data ;;
  if negb present
  then Raise (invalid_enum_value (cls self) data)
  else dict_getitem (_table self) data.

End CachedEnumArgBuilderDelegate.

Module EnumArgBuilderDelegate.

Record t : Type := __init__ { cls : enum_class }.

(** The [for] loop of [resolve] over the members still to visit. *)
Fixpoint scan (cls : enum_class) (members : list enum_member) (data : value)
  : result value :=
  match members with
  | [] => Raise (invalid_enum_value cls data)
  | v :: rest =>
      if py_eq (member_value v) data
      then Ok (member_object cls v)
      else scan cls rest data
  end.

Definition resolve (self : t) (data : value) : result value :=
  scan (cls self) (enum_members (cls self)) data.

End EnumArgBuilderDelegate.

Module ListArgBuilderDelegate.

Import FunctionalArgBuilderDelegate.

(** [[f(x) for x in data]]. *)
Fixpoint comprehension (f : value -> result value) (data : list value)
  : result (list value) :=
  match data with
  | [] => Ok []
  | x :: rest =>
      r <- f x ;;
      rs <- comprehension f rest ;;
      Ok (r :: rs)
  end.

Definition resolve (self : t) (data : list value) : result value :=
  inner_type <- tuple_index (ty_args (cls self)) 0 ;;
  rs <- comprehension (func self inner_type) data ;;
  Ok (VList rs).

End ListArgBuilderDelegate.

Module SetArgBuilderDelegate.

Import FunctionalArgBuilderDelegate.

(** [{f(x) for x in data}], from the elements gathered so far. *)
Fixpoint comprehension (f : value -> result value) (data : list value)
  (acc : list value) : result (list value) :=
  match data with
  | [] => Ok acc
  | x :: rest =>
      r <- f x ;;
      acc' <- set_add acc r ;;
      comprehension f rest acc'
  end.

(** [data] is the sequence of the elements of the given collection, in the
    order its iterator yields them. *)
Definition resolve (self : t) (data : list value) : result value :=
  inner_type <- tuple_index (ty_args (cls self)) 0 ;;
  s <- comprehension (func self inner_type) data [] ;;
  Ok (VSet s).

End SetArgBuilderDelegate.

(** A generator object of the expression [(f(x) for x in data)]: the
    function it closes over and the items its iterator has not yet
    visited. *)
Record generator : Type :=
  { gen_body : value -> result value; gen_pending : list value }.

(** What [next(g)] does: yield an object, raise, or stop. *)
Inductive gen_step : Type :=
| Yielded (v : value) (g' : generator)
| Raised (e : exn) (g' : generator)
| StopIteration.

Definition gen_next (g : generator) : gen_step :=
  match gen_pending g with
  | [] => StopIteration
  | x :: rest =>
      match gen_body g x with
      | Ok v => Yielded v {| gen_body := gen_body g; gen_pending := rest |}
      | Raise e => Raised e {| gen_body := gen_body g; gen_pending := [] |}
      end
  end.

(** [list(g)]: [next] until the generator stops or raises; [fuel] bounds the
    number of calls. *)
Fixpoint gen_drain (fuel : nat) (g : generator) : option (result (list value)) :=
  match fuel with
  | O => None
  | S fuel' =>
      match gen_next g with
      | StopIteration => Some (Ok [])
      | Raised e _ => Some (Raise e)
      | Yielded v g' =>
          match gen_drain fuel' g' with
          | Some (Ok vs) => Some (Ok (v :: vs))
          | other => other
          end
      end
  end.

Module TupleArgBuilderDelegate.

Import FunctionalArgBuilderDelegate.

Definition resolve (self : t) (data : list value) : result generator :=
  inner_type <- tuple_index (ty_args (cls self)) 0 ;;
  Ok {| gen_body := func self inner_type; gen_pending := data |}.

End TupleArgBuilderDelegate.

Module DictArgBuilderDelegate.

Import FunctionalArgBuilderDelegate.

(** [{f(key): g(value) for key, value in items}], from the entries gathered
    so far; the key expression is evaluated before the value expression. *)
Fixpoint comprehension (f g : value -> result value) (items : dict)
  (acc : dict) : result dict :=
  match items with
  | [] => Ok acc
  | (key, value) :: rest =>
      k <- f key ;;
      v <- g value ;;
      acc' <- dict_setitem acc k v ;;
      comprehension f g rest acc'
  end.

Definition resolve (self : t) (data : dict) : result value :=
  key_type <- tuple_index (ty_args (cls self)) 0 ;;
  value_type <- tuple_index (ty_args (cls self)) 1 ;;
  d <- comprehension (func self key_type) (func self value_type) data [] ;;
  Ok (VDict d).

End DictArgBuilderDelegate.

Module BuiltinArgBuilderDelegate.

(** [cls] is kept as the call [cls(data)] of the bound type. *)
Record t : Type := __init__ { cls : value -> result value }.

Definition resolve (self : t) (data : value) : result value :=
  match data with
  | VNone => Ok VNone
  | _ => cls self data
  end.

End BuiltinArgBuilderDelegate.

Module DateTimeArgBuilderDelegate.

(** [__init__] binds the delegate to [datetime.datetime]. *)
Definition cls : type_desc := TyCon "datetime" [].

Section Parser.

(** [dateutil.parser.parse]. *)
Variable parse : value -> result value.

Definition resolve (data : value) : result value := parse data.

End Parser.

End DateTimeArgBuilderDelegate.

Module UserDefinedArgBuilderDelegate.

Record t : Type := __init__
  { cls : type_desc;
    func : dispatcher;
    ignore_unknown_fields : bool;
    walk_unknown_fields : bool }.

Definition unknown_field (key value : value) : exn :=
  UnknownFieldError
    [Lit "Found unknown field ("; Fmt key; Lit ": "; Fmt value;
     Lit "). If you would like to skip unknown fields create a Marshal object who can skip ignore_unknown_fields"].

(** [unsatisfied[key]] when [key in unsatisfied], for the parameters
    [unsatisfied] of a constructor: only a string equals a parameter name.
    (The key comes out of a dict, so hashing it cannot raise.) *)
Fixpoint lookup_param (unsatisfied : list (string * type_desc)) (key : value)
  : option type_desc :=
  match unsatisfied with
  | [] => None
  | (p, param_type) :: rest =>
      if py_eq (VStr p) key then Some param_type else lookup_param rest key
  end.

Definition isinstance_dict (v : value) : bool :=
  match v with VDict _ => true | _ => false end.

Section Resolve.

(** [pymarshaler.utils.get_init_params]: the constructor parameters of a
    class, by name, with their annotated types. *)
Variable get_init_params : type_desc -> list (string * type_desc).

Variable self : t.

Section Loops.

Variable unsatisfied : list (string * type_desc).

(** The recursive call [self._resolve(cls, x)]. *)
Variable recur : value -> result dict.

(** [for x in value: if isinstance(x, dict): args.update(...)]. *)
Fixpoint walk_items (xs : list value) (args : dict) : result dict :=
  match xs with
  | [] => Ok args
  | x :: rest =>
      if isinstance_dict x
      then found <- recur x ;; walk_items rest (dict_update args found)
      else walk_items rest args
  end.

(** [for key, value in data.items(): ...], from the [args] gathered so far;
    the two [isinstance] tests are the match on [value]. *)
Fixpoint for_items (items : dict) (args : dict) : result dict :=
  match items with
  | [] => Ok args
  | (key, value) :: rest =>
      match lookup_param unsatisfied key with
      | Some param_type =>
          r <- func self param_type value ;;
          args' <- dict_setitem args key r ;;
          for_items rest args'
      | None =>
          if negb (ignore_unknown_fields self)
          then Raise (unknown_field key value)
          else if walk_unknown_fields self
          then
            match value with
            | VDict _ =>
                found <- recur value ;; for_items rest (dict_update args found)
            | VList xs | VSet xs | VTuple xs =>
                args' <- walk_items xs args ;; for_items rest args'
            | _ => for_items rest args
            end
          else for_items rest args
      end
  end.

End Loops.

(** [self._resolve(cls, data)]; [data.items()] exists on a dict only. *)
Fixpoint _resolve (cls : type_desc) (data : value) {struct data} : result dict :=
  match data with
  | VDict items => for_items (get_init_params cls) (_resolve cls) items []
  | _ => Raise (AttributeError [Lit "object has no attribute 'items'"])
  end.

Definition resolve (data : dict) : result value :=
  args <- _resolve (cls self) (VDict data) ;;
  Ok (VDict args).

End Resolve.

End UserDefinedArgBuilderDelegate.

(** ** The builtin [int] *)

(** [type(v).__name__]. *)
Definition type_name (v : value) : string :=
  match v with
  | VNone => "NoneType"
  | VBool _ => "bool"
  | VInt _ => "int"
  | VStr _ => "str"
  | VList _ => "list"
  | VTuple _ => "tuple"
  | VSet _ => "set"
  | VDict _ => "dict"
  | VEnum cls _ _ => cls
  | VDateTime _ => "datetime"
  | VObject _ cls _ => cls
  end.

(** The whitespace that [int] strips from an ASCII string: the space and
    the codes 9 to 13. *)
Definition is_space (c : ascii) : bool :=
  let n := nat_of_ascii c in
  ((n =? 32) || ((9 <=? n) && (n <=? 13)))%nat.

Definition digit_of (c : ascii) : option Z :=
  let n := Z.of_nat (nat_of_ascii c) in
  if (48 <=? n) && (n <=? 57) then Some (n - 48) else None.

Fixpoint lstrip (cs : list ascii) : list ascii :=
  match cs with
  | c :: cs' => if is_space c then lstrip cs' else cs
  | [] => []
  end.

Definition strip (cs : list ascii) : list ascii :=
  rev (lstrip (rev (lstrip cs))).

(** Decimal digits, single underscores allowed between two digits. *)
Fixpoint digits (cs : list ascii) (acc : Z) (after_digit : bool) : option Z :=
  match cs with
  | [] => if after_digit then Some acc else None
  | c :: cs' =>
      match digit_of c with
      | Some d => digits cs' (10 * acc + d) true
      | None =>
          if Ascii.eqb c "_" && after_digit then digits cs' acc false else None
      end
  end.

Definition int_literal (s : string) : option Z :=
  match strip (list_ascii_of_string s) with
  | c :: cs =>
      if Ascii.eqb c "-" then option_map Z.opp (digits cs 0 false)
      else if Ascii.eqb c "+" then digits cs 0 false
      else digits (c :: cs) 0 false
  | [] => None
  end.

(** [int(data)] on the values of the model, strings being ASCII. *)
Definition int_call (data : value) : result value :=
  match data with
  | VInt n => Ok (VInt n)
  | VBool b => Ok (VInt (Z.b2z b))
  | VStr s =>
      match int_literal s with
      | Some n => Ok (VInt n)
      | None =>
          Raise (ValueError [Lit "invalid literal for int() with base 10: ";
                             Fmt data])
      end
  | _ =>
      Raise (TypeError
               [Lit "int() argument must be a string, a bytes-like object or a real number, not '";
                Lit (type_name data); Lit "'"])
  end.

(** ** Classes and dispatchers of the examples *)

Definition int_type : type_desc := TyCon "int" [].
Definition str_type : type_desc := TyCon "str" [].

(** A dispatcher that hands every raw value back as it is. *)
Definition passthrough : dispatcher := fun _ data => Ok data.

(** A dispatcher that sends [int] to a [BuiltinArgBuilderDelegate] and hands
    the values of any other type back. *)
Definition int_dispatcher : dispatcher :=
  fun cls data =>
    if String.eqb (ty_name cls) "int"
    then BuiltinArgBuilderDelegate.resolve
           (BuiltinArgBuilderDelegate.__init__ int_call) data
    else Ok data.

(** [class Person: def __init__(self, name: str)] and
    [class Account: def __init__(self, age: int)]. *)
Definition Person : type_desc := TyCon "Person" [].
Definition Account : type_desc := TyCon "Account" [].

Definition example_init_params (cls : type_desc)
  : list (string * type_desc) :=
  if String.eqb (ty_name cls) "Person" then [("name", str_type)]
  else if String.eqb (ty_name cls) "Account" then [("age", int_type)]
  else [].

(** [class Color(Enum): RED = 1; GREEN = 2]. *)
Definition Color : enum_class :=
  {| enum_name := "Color";
     enum_members := [ {| member_name := "RED"; member_value := VInt 1 |};
                       {| member_name := "GREEN"; member_value := VInt 2 |} ] |}.

(** A parser that recognises no date. *)
Definition no_date_parser : value -> result value :=
  fun data => Raise (mkExn "ParserError" [Lit "Unknown string format: "; Fmt data]).

(** ** Notions used in the statements *)

(** A dict holds no two equal keys. *)
Fixpoint dict_wf (d : dict) : Prop :=
  match d with
  | [] => True
  | (k, _) :: d' => dict_get d' k = None /\ dict_wf d'
  end.

(** The elements of a set are pairwise different. *)
Fixpoint set_wf (s : list value) : Prop :=
  match s with
  | [] => True
  | x :: s' => set_mem s' x = false /\ set_wf s'
  end.

(** The items of a [list], [set] or [tuple] object. *)
Definition sequence_items (v : value) : option (list value) :=
  match v with
  | VList xs | VSet xs | VTuple xs => Some xs
  | _ => None
  end.

(** The values the loop over [items] may hand to [_resolve] again: the
    value of an entry, and the items of a value that is a sequence. *)
Definition walked (items : dict) (x : value) : Prop :=
  exists key value,
    In (key, value) items /\
    (x = value \/ exists xs, sequence_items value = Some xs /\ In x xs).

(** Every key of every dict inside [v]. *)
Fixpoint dict_keys_in (v : value) : list value :=
  match v with
  | VDict kvs => flat_map (fun kv => fst kv :: dict_keys_in (snd kv)) kvs
  | VList xs | VSet xs | VTuple xs => flat_map dict_keys_in xs
  | _ => []
  end.

(** Every key of [d] satisfies [Q]. *)
Definition all_keys (Q : value -> Prop) (d : dict) : Prop :=
  forall k v, In (k, v) d -> Q k.

(** [Enum] makes a second name for a value an alias of the first member, so
    two members that differ have different values. *)
Definition enum_members_distinct (cls : enum_class) : Prop :=
  forall v w,
    In v (enum_members cls) -> In w (enum_members cls) ->
    py_eq (member_value v) (member_value w) = true -> v = w.

(** Short names for the delegate modules. *)
Module FD := FunctionalArgBuilderDelegate.
Module CE := CachedEnumArgBuilderDelegate.
Module LE := EnumArgBuilderDelegate.
Module UD := UserDefinedArgBuilderDelegate.

(** ** Notions used in the further statements *)

(** The objects that the first [n] calls of [next] yield, with the
    generator they leave, when each of these calls yields. *)
Fixpoint gen_yields (n : nat) (g : generator)
  : option (list value * generator) :=
  match n with
  | O => Some ([], g)
  | S n' =>
      match gen_next g with
      | Yielded v g' =>
          match gen_yields n' g' with
          | Some (vs, g'') => Some (v :: vs, g'')
          | None => None
          end
      | _ => None
      end
  end.

(** [key in unsatisfied]. *)
Definition is_param (unsatisfied : list (string * type_desc)) (key : value)
  : bool :=
  match UserDefinedArgBuilderDelegate.lookup_param unsatisfied key with
  | Some _ => true
  | None => false
  end.

(** [data] inside single-entry dicts under the keys [ks], the first key
    outermost. *)
Fixpoint wrap_in (ks : list value) (data : dict) : dict :=
  match ks with
  | [] => data
  | k :: ks' => [(k, VDict (wrap_in ks' data))]
  end.

(** [v] is no dict and, when a list, set or tuple, has no dict among its
    items. *)
Definition holds_no_dict (v : value) : bool :=
  match v with
  | VDict _ => false
  | VList xs | VSet xs | VTuple xs =>
      forallb (fun x => negb (UserDefinedArgBuilderDelegate.isinstance_dict x)) xs
  | _ => true
  end.

(** * Properties *)

(** ** [py_eq] is an equivalence *)

Section Forall2bFacts.
Context {A : Type}.
Variable f : A -> A -> bool.

Lemma forall2b_refl (xs : list A) :
  (forall x, In x xs -> f x x = true) -> forall2b f xs xs = true.
Proof.
  induction xs as [|x xs IH]; simpl; intros H; [reflexivity|].
  rewrite H by now left. apply IH. intros y Hy. apply H. now right.
Qed.

Lemma forall2b_sym (xs ys : list A) :
  (forall x, In x xs -> forall y, f x y = f y x) ->
  forall2b f xs ys = forall2b f ys xs.
Proof.
  revert ys. induction xs as [|x xs IH]; intros [|y ys] H; simpl; try reflexivity.
  rewrite (H x) by now left. f_equal. apply IH. intros z Hz. apply H. now right.
Qed.

Lemma forall2b_trans (xs ys zs : list A) :
  (forall x, In x xs ->
     forall y z, f x y = true -> f y z = true -> f x z = true) ->
  forall2b f xs ys = true -> forall2b f ys zs = true -> forall2b f xs zs = true.
Proof.
  revert ys zs.
  induction xs as [|x xs IH]; intros [|y ys] [|z zs] H; simpl;
    try discriminate; try reflexivity.
  rewrite !andb_true_iff. intros [Hxy Hr1] [Hyz Hr2]. split.
  - eapply H; eauto. now left.
  - eapply IH; eauto. intros w Hw. apply H. now right.
Qed.
End Forall2bFacts.

(** [covers r xs ys]: every element of [xs] has an [r]-partner in [ys]. *)
Lemma covers_iff {A B : Type} (r : A -> B -> bool) (xs : list A) (ys : list B) :
  forallb (fun x => existsb (fun y => r x y) ys) xs = true <->
  (forall x, In x xs -> exists y, In y ys /\ r x y = true).
Proof.
  rewrite forallb_forall. split; intros H x Hx.
  - apply existsb_exists. now apply H.
  - apply existsb_exists. now apply H.
Qed.

Lemma py_eq_refl (a : value) : py_eq a a = true.
Proof.
  induction a as [ | b | n | s | xs IH | xs IH | xs IH | kvs IH
                   | c m v IH | i | o c attrs IH ] using value_nested_ind;
    simpl.
  - reflexivity.
  - now destruct b.
  - apply Z.eqb_refl.
  - apply String.eqb_refl.
  - now apply forall2b_refl.
  - now apply forall2b_refl.
  - apply andb_true_iff; split; apply covers_iff; intros x Hx; exists x; auto.
  - apply andb_true_iff; split; apply covers_iff; intros [k v] Hx;
      exists (k, v); (split; [assumption|]); simpl;
      destruct (IH k v Hx) as [-> ->]; reflexivity.
  - now rewrite !String.eqb_refl.
  - apply Z.eqb_refl.
  - apply Nat.eqb_refl.
Qed.

Lemma py_eq_sym (a b : value) : py_eq a b = py_eq b a.
Proof.
  revert b.
  induction a as [ | x | n | s | xs IH | xs IH | xs IH | kvs IH
                   | c m v IH | i | o c attrs IH ] using value_nested_ind;
    intros [ | y | n' | s' | ys | ys | ys | kvs' | c' m' v' | i' | o' c' attrs' ];
    simpl; try reflexivity.
  - now destruct x, y.
  - apply Z.eqb_sym.
  - apply Z.eqb_sym.
  - apply Z.eqb_sym.
  - apply String.eqb_sym.
  - apply forall2b_sym. auto.
  - apply forall2b_sym. auto.
  - rewrite andb_comm. apply eq_iff_eq_true.
    rewrite !andb_true_iff, !covers_iff. split; intros [H1 H2]; split.
    + intros y Hy. destruct (H1 y Hy) as (x & Hx & E). exists x.
      split; [assumption|]. now rewrite <- (IH x Hx).
    + intros x Hx. destruct (H2 x Hx) as (y & Hy & E). exists y.
      split; [assumption|]. now rewrite <- (IH x Hx).
    + intros y Hy. destruct (H1 y Hy) as (x & Hx & E). exists x.
      split; [assumption|]. now rewrite (IH x Hx).
    + intros x Hx. destruct (H2 x Hx) as (y & Hy & E). exists y.
      split; [assumption|]. now rewrite (IH x Hx).
  - rewrite andb_comm. apply eq_iff_eq_true.
    rewrite !andb_true_iff, !covers_iff. split; intros [H1 H2]; split.
    + intros q Hq. destruct (H1 q Hq) as ([k v] & Hp & E). exists (k, v).
      split; [assumption|]. destruct (IH k v Hp) as [Ek Ev]. simpl in *.
      now rewrite <- Ek, <- Ev.
    + intros [k v] Hp. destruct (H2 (k, v) Hp) as (q & Hq & E). exists q.
      split; [assumption|]. destruct (IH k v Hp) as [Ek Ev]. simpl in *.
      now rewrite <- Ek, <- Ev.
    + intros q Hq. destruct (H1 q Hq) as ([k v] & Hp & E). exists (k, v).
      split; [assumption|]. destruct (IH k v Hp) as [Ek Ev]. simpl in *.
      now rewrite Ek, Ev.
    + intros [k v] Hp. destruct (H2 (k, v) Hp) as (q & Hq & E). exists q.
      split; [assumption|]. destruct (IH k v Hp) as [Ek Ev]. simpl in *.
      now rewrite Ek, Ev.
  - now rewrite (String.eqb_sym c), (String.eqb_sym m).
  - apply Z.eqb_sym.
  - apply Nat.eqb_sym.
Qed.

Lemma py_eq_trans (a b c : value) :
  py_eq a b = true -> py_eq b c = true -> py_eq a c = true.
Proof.
  revert b c.
  induction a as [ | x | n | s | xs IH | xs IH | xs IH | kvs IH
                   | cl m v IH | i | o cl attrs IH ] using value_nested_ind;
    intros b c; destruct b as [ | y | n' | s' | ys | ys | ys | kvs'
                              | cl' m' v' | i' | o' cl' attrs' ];
    simpl; try discriminate;
    destruct c as [ | z | n'' | s'' | zs | zs | zs | kvs''
                  | cl'' m'' v'' | i'' | o'' cl'' attrs'' ];
    simpl; try discriminate; try reflexivity;
    try (intros H1 H2;
         repeat match goal with t : bool |- _ => destruct t end;
         cbn [Z.b2z Bool.eqb] in *; rewrite ?Z.eqb_eq in *;
         solve [discriminate | lia | reflexivity]).
  - rewrite !String.eqb_eq. congruence.
  - apply forall2b_trans. intros x Hx y z. now apply IH.
  - apply forall2b_trans. intros x Hx y z. now apply IH.
  - rewrite !andb_true_iff, !covers_iff.
    intros [A1 B1] [A2 B2]. split.
    + intros x Hx. destruct (A1 x Hx) as (y & Hy & E1).
      destruct (A2 y Hy) as (z & Hz & E2). exists z. split; [assumption|].
      now apply (IH x Hx y z).
    + intros z Hz. destruct (B2 z Hz) as (y & Hy & E2).
      destruct (B1 y Hy) as (x & Hx & E1). exists x. split; [assumption|].
      now apply (IH x Hx y z).
  - rewrite !andb_true_iff, !covers_iff.
    intros [A1 B1] [A2 B2]. split.
    + intros [k v] Hp. destruct (A1 _ Hp) as (q & Hq & E1).
      destruct (A2 q Hq) as (r & Hr & E2). exists r. split; [assumption|].
      simpl in *. apply andb_true_iff in E1, E2. destruct (IH k v Hp) as [Tk Tv].
      apply andb_true_iff. split; [eapply Tk | eapply Tv]; intuition eauto.
    + intros r Hr. destruct (B2 r Hr) as (q & Hq & E2).
      destruct (B1 q Hq) as ([k v] & Hp & E1). exists (k, v).
      split; [assumption|].
      simpl in *. apply andb_true_iff in E1, E2. destruct (IH k v Hp) as [Tk Tv].
      apply andb_true_iff. split; [eapply Tk | eapply Tv]; intuition eauto.
  - rewrite !andb_true_iff, !String.eqb_eq. intuition congruence.
  - rewrite !Nat.eqb_eq. congruence.
Qed.

(** Equal objects are hashable together. *)
Lemma py_eq_unhashable (a b : value) :
  py_eq a b = true -> unhashable a = unhashable b.
Proof.
  revert b.
  induction a as [ | x | n | s | xs IH | xs IH | xs IH | kvs IH
                   | cl m v IH | i | o cl attrs IH ] using value_nested_ind;
    intros [ | y | n' | s' | ys | ys | ys | kvs' | cl' m' v' | i' | o' cl' attrs' ];
    simpl; try discriminate; try reflexivity.
  revert ys. induction xs as [|x xs IHxs]; intros [|y ys]; simpl;
    try discriminate; try reflexivity.
  rewrite andb_true_iff. intros [E Er].
  rewrite (IH x (or_introl eq_refl) y E).
  destruct (unhashable y); [reflexivity|].
  apply IHxs; [|assumption]. intros z Hz. apply IH. now right.
Qed.

(** ** Dictionaries *)

Lemma dict_get_set (d : dict) (k v k' : value) :
  dict_get (dict_set d k v) k' = if py_eq k k' then Some v else dict_get d k'.
Proof.
  induction d as [|[k0 v0] d IH]; simpl.
  - reflexivity.
  - destruct (py_eq k0 k) eqn:E0; simpl.
    + destruct (py_eq k0 k') eqn:E1.
      * rewrite (py_eq_trans k k0 k'); [reflexivity| |assumption].
        now rewrite py_eq_sym.
      * destruct (py_eq k k') eqn:E2; [|reflexivity].
        rewrite (py_eq_trans k0 k k') in E1; [discriminate|assumption..].
    + rewrite IH. destruct (py_eq k0 k') eqn:E1; [|reflexivity].
      destruct (py_eq k k') eqn:E2; [|reflexivity].
      rewrite (py_eq_trans k0 k' k) in E0; [discriminate|assumption|].
      now rewrite py_eq_sym.
Qed.

Lemma dict_update_snoc (a b : dict) (k v : value) :
  dict_update a (b ++ [(k, v)]) = dict_set (dict_update a b) k v.
Proof. unfold dict_update. now rewrite fold_left_app. Qed.

(** In a merge the entries of the merged dict win, the last one first. *)
Lemma dict_get_update_rev (a b : dict) (k : value) :
  dict_get (dict_update a b) k =
  match dict_get (rev b) k with
  | Some w => Some w
  | None => dict_get a k
  end.
Proof.
  induction b as [|[k0 v0] b IH] using rev_ind.
  - reflexivity.
  - rewrite dict_update_snoc, dict_get_set, rev_app_distr. simpl.
    destruct (py_eq k0 k); [reflexivity|apply IH].
Qed.

Lemma dict_get_app (d1 d2 : dict) (k : value) :
  dict_get (d1 ++ d2) k =
  match dict_get d1 k with Some w => Some w | None => dict_get d2 k end.
Proof.
  induction d1 as [|[k0 v0] d1 IH]; simpl; [reflexivity|].
  destruct (py_eq k0 k); [reflexivity|apply IH].
Qed.

Lemma dict_get_none_eq (d : dict) (k k' : value) :
  py_eq k k' = true -> dict_get d k = None -> dict_get d k' = None.
Proof.
  intros E. induction d as [|[k0 v0] d IH]; simpl; [reflexivity|].
  destruct (py_eq k0 k) eqn:E0; [discriminate|]. intros H.
  destruct (py_eq k0 k') eqn:E1; [|now apply IH].
  rewrite (py_eq_trans k0 k' k) in E0; [discriminate|assumption|].
  now rewrite py_eq_sym.
Qed.

Lemma dict_get_rev (d : dict) (k : value) :
  dict_wf d -> dict_get (rev d) k = dict_get d k.
Proof.
  induction d as [|[k0 v0] d IH]; simpl; [reflexivity|].
  intros [Hk Hd]. rewrite dict_get_app, IH by assumption. simpl.
  destruct (py_eq k0 k) eqn:E0.
  - now rewrite (dict_get_none_eq d k0 k E0 Hk).
  - now destruct (dict_get d k).
Qed.

Lemma dict_set_wf (d : dict) (k v : value) :
  dict_wf d -> dict_wf (dict_set d k v).
Proof.
  induction d as [|[k0 v0] d IH]; simpl.
  - auto.
  - intros [Hk Hd]. destruct (py_eq k0 k) eqn:E0; simpl.
    + auto.
    + split; [|now apply IH].
      rewrite dict_get_set, py_eq_sym, E0. assumption.
Qed.

Lemma dict_update_wf (a b : dict) : dict_wf a -> dict_wf (dict_update a b).
Proof.
  induction b as [|[k0 v0] b IH] using rev_ind; intros Ha.
  - assumption.
  - rewrite dict_update_snoc. apply dict_set_wf. now apply IH.
Qed.

(** Last write wins: after [a.update(b)] a key of [b] has the value [b]
    gives it, any other key keeps the value it has in [a]. *)
Lemma dict_get_update (a b : dict) (k : value) :
  dict_wf b ->
  dict_get (dict_update a b) k =
  match dict_get b k with
  | Some w => Some w
  | None => dict_get a k
  end.
Proof. intros Hb. now rewrite dict_get_update_rev, dict_get_rev. Qed.

(** The keys of a dict after a store are those it had, and the new one. *)
Lemma dict_set_keys (d : dict) (k v k' v' : value) :
  In (k', v') (dict_set d k v) ->
  k' = k \/ exists w, In (k', w) d.
Proof.
  induction d as [|[k0 v0] d IH]; simpl.
  - intros [E|[]]. left. congruence.
  - destruct (py_eq k0 k); simpl.
    + intros [E|H]; right.
      * exists v0. left. congruence.
      * exists v'. now right.
    + intros [E|H].
      * right. exists v'. now left.
      * destruct (IH H) as [->|[w Hw]]; [now left|].
        right. exists w. now right.
Qed.

Lemma dict_update_keys (a b : dict) (k' v' : value) :
  In (k', v') (dict_update a b) ->
  (exists w, In (k', w) a) \/ (exists w, In (k', w) b).
Proof.
  revert v'. induction b as [|[k0 v0] b IH] using rev_ind; intros v'.
  - intros H. left. now exists v'.
  - rewrite dict_update_snoc. intros H.
    destruct (dict_set_keys _ _ _ _ _ H) as [->|[w Hw]].
    + right. exists v0. apply in_or_app. right. now left.
    + destruct (IH _ Hw) as [Ha|[w' Hb]]; [now left|].
      right. exists w'. apply in_or_app. now left.
Qed.

(** ** Leaf delegates *)

(** C2, on a concrete input: the delegate bound to [int] fails on ["abc"]
    with the [ValueError] that [int] raises, which is no
    [ConversionError]. *)
Lemma builtin_resolve_raises_value_error :
  let self := BuiltinArgBuilderDelegate.__init__ int_call in
  let e := ValueError [Lit "invalid literal for int() with base 10: ";
                       Fmt (VStr "abc")] in
  int_call (VStr "abc") = Raise e
  /\ BuiltinArgBuilderDelegate.resolve self (VStr "abc") = Raise e
  /\ exn_class e <> "ConversionError".
Proof. repeat split. discriminate. Qed.

(** C2, amended: when the constructor of the bound scalar type rejects a
    raw value other than [None], or the date parser rejects the raw value,
    [resolve] fails with the very exception that was raised there; nothing
    is wrapped into another exception. *)
Theorem leaf_resolve_propagates_rejection
  (self : BuiltinArgBuilderDelegate.t) (parse : value -> result value)
  (data data' : value) (e e' : exn) :
  data <> VNone ->
  BuiltinArgBuilderDelegate.cls self data = Raise e ->
  parse data' = Raise e' ->
  BuiltinArgBuilderDelegate.resolve self data = Raise e
  /\ DateTimeArgBuilderDelegate.resolve parse data' = Raise e'.
Proof.
  intros Hn Hc Hp. split; [|exact Hp].
  destruct data; try exact Hc. now destruct Hn.
Qed.

Lemma leaf_resolve_propagates_rejection_witness :
  BuiltinArgBuilderDelegate.resolve
    (BuiltinArgBuilderDelegate.__init__ int_call) (VStr "abc")
  = Raise (ValueError [Lit "invalid literal for int() with base 10: ";
                       Fmt (VStr "abc")])
  /\ DateTimeArgBuilderDelegate.resolve no_date_parser (VStr "not-a-date")
     = Raise (mkExn "ParserError"
                [Lit "Unknown string format: "; Fmt (VStr "not-a-date")]).
Proof.
  apply (leaf_resolve_propagates_rejection
           (BuiltinArgBuilderDelegate.__init__ int_call) no_date_parser
           (VStr "abc") (VStr "not-a-date")).
  - discriminate.
  - reflexivity.
  - reflexivity.
Defined.

(** ** The enum delegates *)

Section EnumFacts.

Variable cls : enum_class.
Variable data : value.

Let matches (v : enum_member) : bool := py_eq (member_value v) data.

(** The scan returns the first member whose value equals the input. *)
Lemma scan_find (members : list enum_member) :
  LE.scan cls members data =
  match find matches members with
  | Some v => Ok (member_object cls v)
  | None => Raise (invalid_enum_value cls data)
  end.
Proof.
  induction members as [|v members IH]; simpl; [reflexivity|].
  unfold matches at 1. now destruct (py_eq (member_value v) data).
Qed.

Lemma build_table_fold (members : list enum_member) (table : dict) :
  (forall v, In v members -> hashable (member_value v) = true) ->
  CE.build_table cls members table =
  Ok (fold_left (fun t v => dict_set t (member_value v) (member_object cls v))
        members table).
Proof.
  revert table. induction members as [|v members IH]; intros table H; simpl.
  - reflexivity.
  - assert (Hv : hashable (member_value v) = true) by (apply H; now left).
    unfold dict_setitem, py_hash. unfold hashable in Hv.
    destruct (unhashable (member_value v)); [discriminate|]. simpl.
    apply IH. intros w Hw. apply H. now right.
Qed.

Lemma build_table_hashable (members : list enum_member) (table out : dict) :
  CE.build_table cls members table = Ok out ->
  forall v, In v members -> hashable (member_value v) = true.
Proof.
  revert table. induction members as [|v members IH]; intros table; simpl.
  - intros _ w [].
  - unfold dict_setitem, py_hash, hashable.
    destruct (unhashable (member_value v)) eqn:E; simpl; [discriminate|].
    intros H w [<-|Hw]; [now rewrite E|]. eapply IH; eauto.
Qed.

(** The table gives the last member whose value equals the key. *)
Lemma table_get (members : list enum_member) (table : dict) :
  dict_get
    (fold_left (fun t v => dict_set t (member_value v) (member_object cls v))
       members table) data =
  match find matches (rev members) with
  | Some v => Some (member_object cls v)
  | None => dict_get table data
  end.
Proof.
  induction members as [|v members IH] using rev_ind.
  - reflexivity.
  - rewrite fold_left_app, rev_app_distr. simpl. rewrite dict_get_set.
    unfold matches at 1. destruct (py_eq (member_value v) data);
      [reflexivity|apply IH].
Qed.

Lemma find_rev_unique {A : Type} (f : A -> bool) (l : list A) :
  (forall a b, In a l -> In b l -> f a = true -> f b = true -> a = b) ->
  find f (rev l) = find f l.
Proof.
  intros Hu.
  destruct (find f l) as [a|] eqn:E1; destruct (find f (rev l)) as [b|] eqn:E2;
    try reflexivity.
  - apply find_some in E1, E2. destruct E1 as [Ia Fa], E2 as [Ib Fb].
    apply in_rev in Ib. f_equal. now apply Hu.
  - apply find_some in E1. destruct E1 as [Ia Fa].
    rewrite (find_none _ _ E2 a) in Fa; [discriminate|]. now apply in_rev in Ia.
  - apply find_some in E2. destruct E2 as [Ib Fb]. apply in_rev in Ib.
    rewrite (find_none _ _ E1 b) in Fb; [discriminate|assumption].
Qed.

(** The linear scan: the member whose value equals the input is returned,
    and an input that no member equals raises [UnknownFieldError] with the
    value and the name of the enum in its message. *)
Lemma enum_resolve_member (v : enum_member) :
  enum_members_distinct cls ->
  In v (enum_members cls) -> py_eq (member_value v) data = true ->
  LE.resolve (LE.__init__ cls) data = Ok (member_object cls v).
Proof.
  intros Hd Hin Hv. unfold LE.resolve. simpl. rewrite scan_find.
  destruct (find matches (enum_members cls)) as [w|] eqn:E.
  - apply find_some in E. destruct E as [Hw Mw]. unfold matches in Mw.
    rewrite (Hd w v); auto.
    apply (py_eq_trans _ data); [assumption|]. now rewrite py_eq_sym.
  - pose proof (find_none _ _ E v Hin) as N. unfold matches in N. congruence.
Qed.

Lemma enum_resolve_no_member :
  (forall v, In v (enum_members cls) -> py_eq (member_value v) data = false) ->
  LE.resolve (LE.__init__ cls) data
  = Raise (UnknownFieldError
             [Lit "Invalid value "; Fmt data; Lit " for enum ";
              Lit (enum_name cls)]).
Proof.
  intros Hn. unfold LE.resolve. simpl. rewrite scan_find.
  destruct (find matches (enum_members cls)) as [w|] eqn:E; [|reflexivity].
  apply find_some in E. destruct E as [Hw Mw]. unfold matches in Mw.
  rewrite Hn in Mw; [discriminate|assumption].
Qed.

(** On a hashable input the cached table and the linear scan agree. *)
Lemma enum_delegates_agree_on_hashable (self : CE.t) :
  enum_members_distinct cls ->
  snd (CE.__init__ cls) = Ok self ->
  hashable data = true ->
  CE.resolve self data = LE.resolve (LE.__init__ cls) data.
Proof.
  intros Hd Hinit Hh. unfold CE.__init__ in Hinit. simpl in Hinit.
  destruct (CE.build_table cls (enum_members cls) []) as [table|e] eqn:B;
    simpl in Hinit; [|discriminate].
  injection Hinit as <-.
  rewrite build_table_fold in B by (eapply build_table_hashable; eauto).
  injection B as <-.
  unfold CE.resolve, dict_contains, dict_getitem, py_hash, LE.resolve. simpl.
  unfold hashable in Hh. destruct (unhashable data); [discriminate|]. simpl.
  rewrite scan_find, table_get, find_rev_unique.
  - now destruct (find matches (enum_members cls)).
  - intros a b Ia Ib Fa Fb. apply Hd; auto. unfold matches in *.
    apply (py_eq_trans _ data); [assumption|]. now rewrite py_eq_sym.
Qed.

(** On an unhashable input they part: the table lookup raises [TypeError]
    where the scan, finding no member, raises [UnknownFieldError]. *)
Lemma enum_delegates_on_unhashable (self : CE.t) (n : string) :
  snd (CE.__init__ cls) = Ok self ->
  unhashable data = Some n ->
  CE.resolve self data
  = Raise (TypeError [Lit "unhashable type: '"; Lit n; Lit "'"])
  /\ LE.resolve (LE.__init__ cls) data = Raise (invalid_enum_value cls data).
Proof.
  intros Hinit Hn. split.
  - unfold CE.resolve, dict_contains, py_hash. now rewrite Hn.
  - apply enum_resolve_no_member. intros v Hv.
    unfold CE.__init__ in Hinit. simpl in Hinit.
    destruct (CE.build_table cls (enum_members cls) []) as [table|e] eqn:B;
      [|discriminate].
    pose proof (build_table_hashable _ _ _ B v Hv) as Hh.
    destruct (py_eq (member_value v) data) eqn:E; [|reflexivity].
    apply py_eq_unhashable in E. unfold hashable in Hh.
    rewrite E, Hn in Hh. discriminate.
Qed.

End EnumFacts.

(** C5, at the input where the code departs from it: the cached delegate
    of [Color] is built, no member has the value [[]], and [resolve([])]
    raises the [TypeError] of the table lookup, not [UnknownFieldError]. *)
Theorem cached_enum_resolve_unhashable_input :
  exists self,
    snd (CE.__init__ Color) = Ok self
    /\ (forall v, In v (enum_members Color) ->
                  py_eq (member_value v) (VList []) = false)
    /\ CE.resolve self (VList [])
       = Raise (TypeError [Lit "unhashable type: '"; Lit "list"; Lit "'"])
    /\ forall msg, CE.resolve self (VList []) <> Raise (UnknownFieldError msg).
Proof.
  eexists. split; [reflexivity|]. split; [|split].
  - intros v [<-|[<-|[]]]; reflexivity.
  - reflexivity.
  - discriminate.
Qed.

(** C6, at the input where the code departs from it: on [[]] the linear
    scan of [Color] raises [UnknownFieldError] and the cached table raises
    [TypeError]; the two outcomes differ in the kind of error. *)
Theorem enum_delegates_differ_on_unhashable_input :
  exists self,
    snd (CE.__init__ Color) = Ok self
    /\ LE.resolve (LE.__init__ Color) (VList [])
       = Raise (UnknownFieldError
                  [Lit "Invalid value "; Fmt (VList []); Lit " for enum ";
                   Lit "Color"])
    /\ CE.resolve self (VList [])
       = Raise (TypeError [Lit "unhashable type: '"; Lit "list"; Lit "'"])
    /\ CE.resolve self (VList []) <> LE.resolve (LE.__init__ Color) (VList []).
Proof.
  eexists. split; [reflexivity|]. split; [reflexivity|].
  split; [reflexivity|discriminate].
Qed.

(** ** The collection delegates *)

Lemma list_comprehension_ok (f : value -> result value)
  (data rs : list value) :
  Forall2 (fun x r => f x = Ok r) data rs ->
  ListArgBuilderDelegate.comprehension f data = Ok rs.
Proof.
  induction 1 as [|x r data rs Hx _ IH]; simpl; [reflexivity|].
  now rewrite Hx, IH.
Qed.

(** Adding the elements of [rs] to a set one after the other. *)
Lemma set_comprehension_ok (f : value -> result value)
  (data rs acc : list value) :
  Forall2 (fun x r => f x = Ok r) data rs ->
  forallb hashable rs = true ->
  SetArgBuilderDelegate.comprehension f data acc =
  Ok (fold_left (fun s r => if set_mem s r then s else s ++ [r]) rs acc).
Proof.
  intros H. revert acc.
  induction H as [|x r data rs Hx _ IH]; intros acc; simpl; [reflexivity|].
  rewrite andb_true_iff. intros [Hr Hrs]. rewrite Hx. simpl.
  unfold set_add, py_hash. unfold hashable in Hr.
  destruct (unhashable r); [discriminate|]. simpl. now apply IH.
Qed.

Lemma set_mem_app (s t : list value) (v : value) :
  set_mem (s ++ t) v = set_mem s v || set_mem t v.
Proof. apply existsb_app. Qed.

Lemma set_mem_eq (s : list value) (r v : value) :
  py_eq r v = true -> set_mem s r = set_mem s v.
Proof.
  intros E. unfold set_mem. induction s as [|y s IH]; simpl; [reflexivity|].
  rewrite IH. f_equal.
  destruct (py_eq y r) eqn:E1, (py_eq y v) eqn:E2; try reflexivity.
  - now rewrite (py_eq_trans y r v) in E2.
  - rewrite (py_eq_trans y v r) in E1; [discriminate|assumption|].
    now rewrite py_eq_sym.
Qed.

Lemma set_fold_mem (rs acc : list value) (v : value) :
  set_mem (fold_left (fun s r => if set_mem s r then s else s ++ [r]) rs acc) v
  = set_mem acc v || set_mem rs v.
Proof.
  revert acc. induction rs as [|r rs IH]; intros acc; simpl.
  - now rewrite orb_false_r.
  - rewrite IH. destruct (set_mem acc r) eqn:M.
    + destruct (py_eq r v) eqn:E; [|reflexivity].
      rewrite <- (set_mem_eq acc r v E), M. reflexivity.
    + rewrite set_mem_app. simpl. now rewrite orb_false_r, orb_assoc.
Qed.

Lemma set_wf_snoc (s : list value) (r : value) :
  set_wf s -> set_mem s r = false -> set_wf (s ++ [r]).
Proof.
  induction s as [|x s IH]; simpl.
  - auto.
  - intros [Hx Hs]. rewrite orb_false_iff. intros [Exr Mr]. split.
    + rewrite set_mem_app, Hx. simpl. now rewrite py_eq_sym, Exr.
    + now apply IH.
Qed.

Lemma set_fold_wf (rs acc : list value) :
  set_wf acc ->
  set_wf (fold_left (fun s r => if set_mem s r then s else s ++ [r]) rs acc).
Proof.
  revert acc. induction rs as [|r rs IH]; intros acc Ha; simpl; [assumption|].
  apply IH. destruct (set_mem acc r) eqn:M; [assumption|].
  now apply set_wf_snoc.
Qed.

Lemma set_fold_in (rs acc : list value) (x : value) :
  In x (fold_left (fun s r => if set_mem s r then s else s ++ [r]) rs acc) ->
  In x acc \/ In x rs.
Proof.
  revert acc. induction rs as [|r rs IH]; intros acc; simpl; [auto|].
  intros H. destruct (IH _ H) as [Ha|Hr]; [|auto].
  destruct (set_mem acc r); [auto|].
  apply in_app_or in Ha. destruct Ha as [Ha|[<-|[]]]; auto.
Qed.

(** C7: when the dispatcher resolves every element of the input with the
    element type [T], the list delegate returns the list of the resolved
    elements, of the same length and in the same order; and when these are
    hashable, the set delegate returns a set without two equal elements,
    made of resolved elements, to which an object belongs exactly when it
    equals one of them. *)
Theorem list_and_set_resolve_elementwise (self : FD.t) (T : type_desc)
  (rest : list type_desc) (data rs : list value) :
  ty_args (FD.cls self) = T :: rest ->
  Forall2 (fun x r => FD.func self T x = Ok r) data rs ->
  ListArgBuilderDelegate.resolve self data = Ok (VList rs)
  /\ List.length rs = List.length data
  /\ (forallb hashable rs = true ->
      exists s,
        SetArgBuilderDelegate.resolve self data = Ok (VSet s)
        /\ set_wf s
        /\ (forall x, In x s -> In x rs)
        /\ forall v, set_mem s v = set_mem rs v).
Proof.
  intros Hargs H. split; [|split].
  - unfold ListArgBuilderDelegate.resolve. rewrite Hargs. simpl.
    now rewrite (list_comprehension_ok _ _ rs H).
  - symmetry. eapply Forall2_length; eauto.
  - intros Hh. eexists. split; [|split; [|split]].
    + unfold SetArgBuilderDelegate.resolve. rewrite Hargs. simpl.
      rewrite (set_comprehension_ok _ _ rs [] H Hh). reflexivity.
    + apply set_fold_wf. exact I.
    + intros x Hx. destruct (set_fold_in _ _ _ Hx) as [[]|Hr]. assumption.
    + intros v. now rewrite set_fold_mem.
Qed.

Lemma list_and_set_resolve_elementwise_witness :
  let self := FD.__init__ (TyCon "List" [int_type]) int_dispatcher in
  let data := [VStr "1"; VStr "01"; VStr "2"] in
  let rs := [VInt 1; VInt 1; VInt 2] in
  ListArgBuilderDelegate.resolve self data = Ok (VList rs)
  /\ List.length rs = List.length data
  /\ exists s,
      SetArgBuilderDelegate.resolve self data = Ok (VSet s)
      /\ set_wf s
      /\ (forall x, In x s -> In x rs)
      /\ forall v, set_mem s v = set_mem rs v.
Proof.
  destruct (list_and_set_resolve_elementwise
              (FD.__init__ (TyCon "List" [int_type]) int_dispatcher)
              int_type [] [VStr "1"; VStr "01"; VStr "2"]
              [VInt 1; VInt 1; VInt 2] eq_refl)
    as (Hlist & Hlen & Hset).
  - repeat constructor.
  - split; [exact Hlist|]. split; [exact Hlen|]. exact (Hset eq_refl).
Defined.

Lemma dict_comprehension_ok (f g : value -> result value) (data rs acc : dict) :
  Forall2 (fun kv r => f (fst kv) = Ok (fst r) /\ g (snd kv) = Ok (snd r))
    data rs ->
  forallb (fun r => hashable (fst r)) rs = true ->
  DictArgBuilderDelegate.comprehension f g data acc = Ok (dict_update acc rs).
Proof.
  intros H. revert acc.
  induction H as [|[key value] [k v] data rs [Hk Hv] _ IH]; intros acc; simpl;
    [reflexivity|].
  rewrite andb_true_iff. intros [Hh Hrs]. simpl in Hk, Hv. rewrite Hk, Hv.
  simpl. unfold dict_setitem, py_hash. unfold hashable in Hh.
  destruct (unhashable k); [discriminate|]. simpl. now apply IH.
Qed.

(** C8: when the dispatcher resolves every key with the key type [K] and
    every value with the value type [V], and the resolved keys are
    hashable, the dict delegate returns the dict built by storing the
    resolved entries in the order of the input.  Its keys are pairwise
    different, and a key is bound to the value of the last entry whose
    resolved key equals it.  For two entries: both are kept when their
    resolved keys differ; when these are equal one entry is left, under the
    first key, with the value of the second. *)
Theorem dict_resolve_entries (self : FD.t) (K V : type_desc)
  (rest : list type_desc) (data rs : dict) :
  ty_args (FD.cls self) = K :: V :: rest ->
  Forall2 (fun kv r => FD.func self K (fst kv) = Ok (fst r) /\
                       FD.func self V (snd kv) = Ok (snd r)) data rs ->
  forallb (fun r => hashable (fst r)) rs = true ->
  exists d,
    DictArgBuilderDelegate.resolve self data = Ok (VDict d)
    /\ d = dict_update [] rs
    /\ dict_wf d
    /\ (forall k, dict_get d k = dict_get (rev rs) k)
    /\ (forall rk1 rv1 rk2 rv2,
          rs = [(rk1, rv1); (rk2, rv2)] ->
          d = if py_eq rk1 rk2
              then [(rk1, rv2)]
              else [(rk1, rv1); (rk2, rv2)]).
Proof.
  intros Hargs H Hh. exists (dict_update [] rs).
  split; [|split; [|split; [|split]]].
  - unfold DictArgBuilderDelegate.resolve. rewrite Hargs. simpl.
    now rewrite (dict_comprehension_ok _ _ _ rs [] H Hh).
  - reflexivity.
  - now apply dict_update_wf.
  - intros k. rewrite dict_get_update_rev. now destruct (dict_get (rev rs) k).
  - intros rk1 rv1 rk2 rv2 ->. reflexivity.
Qed.

Lemma dict_resolve_entries_witness :
  exists d,
    DictArgBuilderDelegate.resolve
      (FD.__init__ (TyCon "Dict" [int_type; str_type]) int_dispatcher)
      [(VStr "1", VStr "a"); (VStr "01", VStr "b")] = Ok (VDict d)
    /\ d = dict_update [] [(VInt 1, VStr "a"); (VInt 1, VStr "b")]
    /\ dict_wf d
    /\ (forall k, dict_get d k
                  = dict_get (rev [(VInt 1, VStr "a"); (VInt 1, VStr "b")]) k)
    /\ (forall rk1 rv1 rk2 rv2,
          [(VInt 1, VStr "a"); (VInt 1, VStr "b")] = [(rk1, rv1); (rk2, rv2)] ->
          d = if py_eq rk1 rk2
              then [(rk1, rv2)]
              else [(rk1, rv1); (rk2, rv2)]).
Proof.
  apply (dict_resolve_entries
           (FD.__init__ (TyCon "Dict" [int_type; str_type]) int_dispatcher)
           int_type str_type []).
  - reflexivity.
  - repeat constructor.
  - reflexivity.
Defined.

(** Forcing a generator: with more fuel than pending items, [list(g)] is
    the comprehension of its body over them. *)
Lemma gen_drain_comprehension (f : value -> result value) (data : list value)
  (fuel : nat) :
  (List.length data < fuel)%nat ->
  gen_drain fuel {| gen_body := f; gen_pending := data |}
  = Some (ListArgBuilderDelegate.comprehension f data).
Proof.
  revert fuel. induction data as [|x data IH]; intros [|fuel] Hf; simpl in *;
    try lia; [reflexivity|].
  unfold gen_next. simpl. destruct (f x) as [v|e]; simpl; [|reflexivity].
  rewrite IH by lia.
  now destruct (ListArgBuilderDelegate.comprehension f data).
Qed.

(** C9: the tuple delegate returns a generator without resolving anything:
    all the input is still pending in it, and its body resolves an item
    with the first type argument [T], whatever the position of the item and
    whatever the other type arguments are.  Forcing the generator gives what
    resolving the items one after the other with [T] gives, and when each
    item is resolved, the resolved items in the positions of the input. *)
Theorem tuple_resolve_lazy_uniform (self : FD.t) (T : type_desc)
  (rest : list type_desc) (data : list value) :
  ty_args (FD.cls self) = T :: rest ->
  exists g,
    TupleArgBuilderDelegate.resolve self data = Ok g
    /\ gen_pending g = data
    /\ gen_body g = FD.func self T
    /\ gen_drain (S (List.length data)) g
       = Some (ListArgBuilderDelegate.comprehension (FD.func self T) data)
    /\ forall rs,
        Forall2 (fun x r => FD.func self T x = Ok r) data rs ->
        gen_drain (S (List.length data)) g = Some (Ok rs)
        /\ List.length rs = List.length data.
Proof.
  intros Hargs. eexists. split; [|split; [|split; [|split]]].
  - unfold TupleArgBuilderDelegate.resolve. rewrite Hargs. reflexivity.
  - reflexivity.
  - reflexivity.
  - apply gen_drain_comprehension. lia.
  - intros rs H. split.
    + rewrite gen_drain_comprehension by lia.
      now rewrite (list_comprehension_ok _ _ rs H).
    + symmetry. eapply Forall2_length; eauto.
Qed.

Lemma tuple_resolve_lazy_uniform_witness :
  exists g,
    TupleArgBuilderDelegate.resolve
      (FD.__init__ (TyCon "Tuple" [int_type; str_type]) int_dispatcher)
      [VStr "1"; VStr "x"] = Ok g
    /\ gen_pending g = [VStr "1"; VStr "x"]
    /\ gen_drain 3 g
       = Some (Raise (ValueError
                        [Lit "invalid literal for int() with base 10: ";
                         Fmt (VStr "x")])).
Proof.
  destruct (tuple_resolve_lazy_uniform
              (FD.__init__ (TyCon "Tuple" [int_type; str_type]) int_dispatcher)
              int_type [str_type] [VStr "1"; VStr "x"] eq_refl)
    as (g & Hg & Hp & Hb & Hd & _).
  exists g. split; [exact Hg|]. split; [exact Hp|]. exact Hd.
Defined.

(** ** The composite delegate *)

(** Case analysis on the outcome of the first call of a sequence. *)
Ltac step_bind :=
  match goal with
  | |- context [bind ?m _] =>
      let E := fresh "E" in destruct m eqn:E; simpl
  end.

Lemma bind_ok_r {A : Type} (m : result A) : bind m Ok = m.
Proof. now destruct m. Qed.

Section CompositeFacts.

Variable get_init_params : type_desc -> list (string * type_desc).
Variable self : UD.t.

Let R (cls : type_desc) : value -> result dict :=
  UD._resolve get_init_params self cls.

Lemma _resolve_dict (cls : type_desc) (items : dict) :
  R cls (VDict items) =
  UD.for_items self (get_init_params cls) (R cls) items [].
Proof. reflexivity. Qed.

(** Only a string is a parameter name, and it is hashable. *)
Lemma lookup_param_str (ps : list (string * type_desc)) (key : value)
  (ty : type_desc) :
  UD.lookup_param ps key = Some ty -> exists s, key = VStr s.
Proof.
  induction ps as [|[p t] ps IH]; simpl; [discriminate|].
  destruct key; try (intros H; exact (IH H)).
  intros _. now exists s.
Qed.

(** The loop over a concatenation runs the two loops in turn. *)
Lemma for_items_app (ps : list (string * type_desc))
  (recur : value -> result dict) (pre post : dict) (args : dict) :
  UD.for_items self ps recur (pre ++ post) args =
  bind (UD.for_items self ps recur pre args)
       (fun a => UD.for_items self ps recur post a).
Proof.
  revert args. induction pre as [|[key value] pre IH]; intros args; simpl.
  - reflexivity.
  - destruct (UD.lookup_param ps key) as [ty|].
    + destruct (UD.func self ty value) as [r|e]; simpl; [|reflexivity].
      destruct (dict_setitem args key r) as [a|e]; simpl; [apply IH|reflexivity].
    + destruct (UD.ignore_unknown_fields self); simpl; [|reflexivity].
      destruct (UD.walk_unknown_fields self); [|apply IH].
      destruct value; try apply IH; step_bind; solve [apply IH | reflexivity].
Qed.

Lemma walk_items_app (recur : value -> result dict) (xs ys : list value)
  (args : dict) :
  UD.walk_items recur (xs ++ ys) args =
  bind (UD.walk_items recur xs args) (fun a => UD.walk_items recur ys a).
Proof.
  revert args. induction xs as [|x xs IH]; intros args; simpl.
  - reflexivity.
  - destruct (UD.isinstance_dict x); [|apply IH].
    destruct (recur x); simpl; [apply IH|reflexivity].
Qed.

(** Whatever [_resolve] returns is a dict: its keys are pairwise distinct. *)
Lemma walk_items_wf (recur : value -> result dict) (xs : list value)
  (args out : dict) :
  dict_wf args -> UD.walk_items recur xs args = Ok out -> dict_wf out.
Proof.
  revert args. induction xs as [|x xs IH]; intros args Hw; simpl.
  - congruence.
  - destruct (UD.isinstance_dict x); [|now apply IH].
    destruct (recur x) as [f|e]; simpl; [|discriminate].
    apply IH. now apply dict_update_wf.
Qed.

Lemma for_items_wf (ps : list (string * type_desc))
  (recur : value -> result dict) (items : dict) (args out : dict) :
  dict_wf args -> UD.for_items self ps recur items args = Ok out -> dict_wf out.
Proof.
  revert args. induction items as [|[key value] items IH]; intros args Hw; simpl.
  - congruence.
  - destruct (UD.lookup_param ps key) as [ty|].
    + destruct (UD.func self ty value) as [r|e]; simpl; [|discriminate].
      unfold dict_setitem. destruct (py_hash key); simpl; [|discriminate].
      apply IH. now apply dict_set_wf.
    + destruct (UD.ignore_unknown_fields self); simpl; [|discriminate].
      destruct (UD.walk_unknown_fields self); [|now apply IH].
      destruct value; try (now apply IH); step_bind; try discriminate;
        apply IH; solve [eapply walk_items_wf; eauto | now apply dict_update_wf].
Qed.

Lemma _resolve_wf (cls : type_desc) (data : value) (out : dict) :
  R cls data = Ok out -> dict_wf out.
Proof.
  destruct data; try discriminate.
  rewrite _resolve_dict. apply for_items_wf. exact I.
Qed.

End CompositeFacts.

(** ** Induction along the calls of [_resolve] *)

Lemma resolve_ind (P : value -> Prop) :
  (forall items, (forall x, walked items x -> P x) -> P (VDict items)) ->
  (forall v, UD.isinstance_dict v = false -> P v) ->
  forall v, P v.
Proof.
  intros Hdict Hother v.
  enough (H : P v /\ forall xs, sequence_items v = Some xs ->
                                forall x, In x xs -> P x) by apply H.
  induction v as [ | b | n | s | xs IH | xs IH | xs IH | kvs IH
                 | c m w IH | i | o c attrs IH ] using value_nested_ind;
    try (split; [now apply Hother | discriminate]);
    try (split; [now apply Hother |];
         intros ys [= <-] x Hx; now apply IH).
  split; [|discriminate].
  apply Hdict. intros x (key & value & Hin & [->|(xs & Hs & Hx)]).
  - apply (IH key value Hin).
  - destruct (IH key value Hin) as [_ [_ H]]. now apply (H xs).
Qed.

Section KeysOfResult.

Variable get_init_params : type_desc -> list (string * type_desc).
Variable self : UD.t.
Variable Q : value -> Prop.

Lemma dict_set_all_keys (d : dict) (k v : value) :
  Q k -> all_keys Q d -> all_keys Q (dict_set d k v).
Proof.
  intros Hk Hd k' v' H.
  destruct (dict_set_keys _ _ _ _ _ H) as [->|[w Hw]]; eauto.
Qed.

Lemma dict_update_all_keys (a b : dict) :
  all_keys Q a -> all_keys Q b -> all_keys Q (dict_update a b).
Proof.
  intros Ha Hb k' v' H.
  destruct (dict_update_keys _ _ _ _ H) as [[w Hw]|[w Hw]]; eauto.
Qed.

Lemma walk_items_all_keys (recur : value -> result dict) (xs : list value)
  (args out : dict) :
  (forall x f, In x xs -> recur x = Ok f -> all_keys Q f) ->
  all_keys Q args -> UD.walk_items recur xs args = Ok out -> all_keys Q out.
Proof.
  revert args. induction xs as [|x xs IH]; intros args Hrec Ha; simpl.
  - now intros [= <-].
  - assert (Hrec' : forall y f, In y xs -> recur y = Ok f -> all_keys Q f)
      by (intros y f Hy; apply Hrec; now right).
    destruct (UD.isinstance_dict x); [|now apply IH].
    destruct (recur x) as [f|e] eqn:E; simpl; [|discriminate].
    apply IH; [assumption|]. apply dict_update_all_keys; [assumption|].
    apply (Hrec x); [now left|assumption].
Qed.

Lemma for_items_all_keys (ps : list (string * type_desc))
  (recur : value -> result dict) (items : dict) (args out : dict) :
  (forall key value ty,
      In (key, value) items -> UD.lookup_param ps key = Some ty -> Q key) ->
  (forall x f, walked items x -> recur x = Ok f -> all_keys Q f) ->
  all_keys Q args ->
  UD.for_items self ps recur items args = Ok out -> all_keys Q out.
Proof.
  revert args.
  induction items as [|[key value] items IH]; intros args Hexp Hrec Ha; simpl.
  - now intros [= <-].
  - assert (Hexp' : forall k v ty, In (k, v) items ->
                                   UD.lookup_param ps k = Some ty -> Q k)
      by (intros k v ty Hin; apply (Hexp k v); now right).
    assert (Hrec' : forall x f, walked items x -> recur x = Ok f ->
                                all_keys Q f).
    { intros x f (k & v & Hin & Hx). apply Hrec. exists k, v.
      split; [now right|assumption]. }
    assert (Hseq : forall xs a,
               sequence_items value = Some xs -> 
               UD.walk_items recur xs args = Ok a -> all_keys Q a).
    { intros xs a Hs. apply walk_items_all_keys; [|assumption].
      intros x f Hx. apply Hrec. exists key, value.
      split; [now left|]. right. now exists xs. }
    destruct (UD.lookup_param ps key) as [ty|] eqn:L.
    + destruct (UD.func self ty value) as [r|e]; simpl; [|discriminate].
      unfold dict_setitem. destruct (py_hash key); simpl; [|discriminate].
      apply IH; try assumption. apply dict_set_all_keys; [|assumption].
      apply (Hexp key value ty); [now left|assumption].
    + destruct (UD.ignore_unknown_fields self); simpl; [|discriminate].
      destruct (UD.walk_unknown_fields self); [|now apply IH].
      destruct value; try (now apply IH); step_bind; try discriminate;
        apply IH; try assumption; try (now apply (Hseq xs)).
      apply dict_update_all_keys; [assumption|].
      apply (Hrec (VDict kvs)); [|assumption].
      exists key, (VDict kvs). split; now left.
Qed.

End KeysOfResult.

(** Every key of the field map is an expected parameter. *)
Lemma _resolve_keys_expected
  (get_init_params : type_desc -> list (string * type_desc)) (self : UD.t)
  (cls : type_desc) (data : value) (out : dict) :
  UD._resolve get_init_params self cls data = Ok out ->
  all_keys (fun k => exists ty,
                UD.lookup_param (get_init_params cls) k = Some ty) out.
Proof.
  revert out. induction data as [items IH | v Hv] using resolve_ind; intros out.
  - rewrite _resolve_dict. apply for_items_all_keys.
    + intros key value ty _ L. now exists ty.
    + intros x f Hx. now apply IH.
    + intros k v [].
  - destruct v; try discriminate.
Qed.

Lemma dict_keys_in_walked (items : dict) (x : value) (k : value) :
  walked items x -> In k (dict_keys_in x) -> In k (dict_keys_in (VDict items)).
Proof.
  intros (key & value & Hin & Hx) Hk. simpl.
  apply in_flat_map. exists (key, value). split; [assumption|].
  right. simpl. destruct Hx as [->|(xs & Hs & Hx)]; [assumption|].
  destruct value; try discriminate; injection Hs as <-; simpl;
    apply in_flat_map; now exists x.
Qed.

(** Every key of the field map is a key of a dict of the input. *)
Lemma _resolve_keys_in_data
  (get_init_params : type_desc -> list (string * type_desc)) (self : UD.t)
  (cls : type_desc) (data : value) (out : dict) :
  UD._resolve get_init_params self cls data = Ok out ->
  all_keys (fun k => In k (dict_keys_in data)) out.
Proof.
  revert out. induction data as [items IH | v Hv] using resolve_ind; intros out.
  - rewrite _resolve_dict. apply for_items_all_keys.
    + intros key value ty Hin _. simpl. apply in_flat_map.
      exists (key, value). split; [assumption|now left].
    + intros x f Hx E k v Hkv. apply (dict_keys_in_walked items x); [assumption|].
      exact (IH x Hx f E k v Hkv).
    + intros k v [].
  - destruct v; try discriminate.
Qed.

(** ** The parameters the input does not mention *)

Section Extensionality.

Variable self : UD.t.

Lemma walk_items_ext (recur recur' : value -> result dict) (xs : list value)
  (args : dict) :
  (forall x, In x xs -> recur x = recur' x) ->
  UD.walk_items recur xs args = UD.walk_items recur' xs args.
Proof.
  revert args. induction xs as [|x xs IH]; intros args H; simpl; [reflexivity|].
  rewrite <- (H x) by now left.
  destruct (UD.isinstance_dict x); [destruct (recur x); simpl|];
    try reflexivity; apply IH; intros y Hy; apply H; now right.
Qed.

Lemma for_items_ext (ps ps' : list (string * type_desc))
  (recur recur' : value -> result dict) (items : dict) (args : dict) :
  (forall key value, In (key, value) items ->
                     UD.lookup_param ps key = UD.lookup_param ps' key) ->
  (forall x, walked items x -> recur x = recur' x) ->
  UD.for_items self ps recur items args =
  UD.for_items self ps' recur' items args.
Proof.
  revert args.
  induction items as [|[key value] items IH]; intros args Hps Hrec; simpl;
    [reflexivity|].
  assert (IH' : forall a, UD.for_items self ps recur items a =
                          UD.for_items self ps' recur' items a).
  { intros a. apply IH.
    - intros k v Hin. apply (Hps k v). now right.
    - intros x (k & v & Hin & Hx). apply Hrec. exists k, v.
      split; [now right|assumption]. }
  assert (Hseq : forall xs, sequence_items value = Some xs ->
                            UD.walk_items recur xs args =
                            UD.walk_items recur' xs args).
  { intros xs Hs. apply walk_items_ext. intros x Hx. apply Hrec.
    exists key, value. split; [now left|]. right. now exists xs. }
  rewrite <- (Hps key value) by now left.
  destruct (UD.lookup_param ps key) as [ty|].
  - destruct (UD.func self ty value); simpl; [|reflexivity].
    destruct (dict_setitem args key a); simpl; [apply IH'|reflexivity].
  - destruct (UD.ignore_unknown_fields self); simpl; [|reflexivity].
    destruct (UD.walk_unknown_fields self); [|apply IH'].
    destruct value; try apply IH';
      try (rewrite <- (Hseq xs eq_refl); step_bind;
           solve [apply IH' | reflexivity]).
    rewrite <- (Hrec (VDict kvs)).
    + step_bind; solve [apply IH' | reflexivity].
    + exists key, (VDict kvs). split; now left.
Qed.

End Extensionality.

(** Two parameter lists that give the same answer for every key of the
    input give the same outcome. *)
Lemma _resolve_same_lookups
  (get_init_params get_init_params' : type_desc -> list (string * type_desc))
  (self : UD.t) (cls : type_desc) (data : value) :
  (forall k, In k (dict_keys_in data) ->
             UD.lookup_param (get_init_params' cls) k
             = UD.lookup_param (get_init_params cls) k) ->
  UD._resolve get_init_params' self cls data =
  UD._resolve get_init_params self cls data.
Proof.
  induction data as [items IH | v Hv] using resolve_ind; intros Hk.
  - rewrite !_resolve_dict. apply for_items_ext.
    + intros key value Hin. apply Hk. simpl. apply in_flat_map.
      exists (key, value). split; [assumption|now left].
    + intros x Hx. apply IH; [assumption|]. intros k Hin. apply Hk.
      now apply (dict_keys_in_walked items x).
  - now destruct v.
Qed.

(** ** The composite delegate returns its field map *)

Lemma for_items_expected (self : UD.t) (ps : list (string * type_desc))
  (recur : value -> result dict) (data : dict) (rs : list value)
  (args : dict) :
  Forall2 (fun kv r => exists ty, UD.lookup_param ps (fst kv) = Some ty /\
                                  UD.func self ty (snd kv) = Ok r) data rs ->
  UD.for_items self ps recur data args =
  Ok (dict_update args (combine (map fst data) rs)).
Proof.
  intros H. revert args.
  induction H as [|[key value] r data rs (ty & L & F) _ IH]; intros args; simpl.
  - reflexivity.
  - simpl in L, F. rewrite L, F. simpl.
    destruct (lookup_param_str _ _ _ L) as [s ->]. simpl. apply IH.
Qed.

(** C1, on a concrete input: for [class Person] with the one parameter
    [name], [resolve({"name": "x"})] is the dict [{"name": "x"}]; it is not
    an instance of [Person], nor of any class. *)
Lemma composite_resolve_is_not_an_instance :
  let self := UD.__init__ Person passthrough false false in
  let data := [(VStr "name", VStr "x")] in
  UD.resolve example_init_params self data
  = Ok (VDict [(VStr "name", VStr "x")])
  /\ forall oid cls attrs,
      UD.resolve example_init_params self data <> Ok (VObject oid cls attrs).
Proof. split; [reflexivity|discriminate]. Qed.

(** C1, amended: [resolve] returns the accumulated field map itself and
    builds no instance.  Whatever it returns is a dict with pairwise
    distinct keys, each the name of an expected parameter; and when every
    key of the input is an expected parameter whose value the dispatcher
    resolves, it returns exactly the dict that binds each key to its
    resolved value. *)
Theorem composite_resolve_returns_field_map
  (get_init_params : type_desc -> list (string * type_desc)) (self : UD.t)
  (data : dict) :
  (forall r, UD.resolve get_init_params self data = Ok r ->
     exists args,
       r = VDict args /\ dict_wf args /\
       all_keys (fun k => exists ty,
                     UD.lookup_param (get_init_params (UD.cls self)) k
                     = Some ty) args)
  /\ (forall rs,
        Forall2 (fun kv r =>
                   exists ty,
                     UD.lookup_param (get_init_params (UD.cls self)) (fst kv)
                     = Some ty /\
                     UD.func self ty (snd kv) = Ok r) data rs ->
        UD.resolve get_init_params self data
        = Ok (VDict (dict_update [] (combine (map fst data) rs)))).
Proof.
  split.
  - intros r. unfold UD.resolve.
    destruct (UD._resolve get_init_params self (UD.cls self) (VDict data))
      as [args|e] eqn:E; simpl; [|discriminate].
    intros [= <-]. exists args. split; [reflexivity|]. split.
    + eapply _resolve_wf; eauto.
    + eapply _resolve_keys_expected; eauto.
  - intros rs H. unfold UD.resolve. rewrite _resolve_dict.
    now rewrite (for_items_expected _ _ _ _ rs).
Qed.

Lemma composite_resolve_returns_field_map_witness :
  UD.resolve example_init_params (UD.__init__ Person passthrough false false)
    [(VStr "name", VStr "x")]
  = Ok (VDict [(VStr "name", VStr "x")]).
Proof.
  apply (proj2 (composite_resolve_returns_field_map example_init_params
                  (UD.__init__ Person passthrough false false)
                  [(VStr "name", VStr "x")]) [VStr "x"]).
  constructor; [|constructor]. exists str_type. split; reflexivity.
Defined.

(** ** Unknown fields when they are not ignored *)

(** C3, on a concrete input: for [class Account] with the one parameter
    [age: int] and [ignore_unknown_fields] off, the input
    [{"age": "abc", "bogus": 1}] has the unknown key ["bogus"], yet
    [resolve] fails with the [ValueError] of [int("abc")], raised while the
    entry before it is resolved. *)
Lemma unknown_field_after_failing_field :
  let self := UD.__init__ Account int_dispatcher false false in
  let data := [(VStr "age", VStr "abc"); (VStr "bogus", VInt 1)] in
  UD.lookup_param (example_init_params Account) (VStr "bogus") = None
  /\ UD.resolve example_init_params self data
     = Raise (ValueError [Lit "invalid literal for int() with base 10: ";
                          Fmt (VStr "abc")])
  /\ forall msg,
      UD.resolve example_init_params self data <> Raise (UnknownFieldError msg).
Proof. repeat split. discriminate. Qed.

(** C3, amended: with [ignore_unknown_fields] off, when every entry that
    comes before the first unknown key is an expected field that the
    dispatcher resolves, [resolve] fails with [UnknownFieldError], and the
    message carries that first unknown key and its value, whatever follows
    and however many expected fields came before. *)
Theorem unknown_field_fails_fast
  (get_init_params : type_desc -> list (string * type_desc)) (self : UD.t)
  (pre post : dict) (key value : value) :
  UD.ignore_unknown_fields self = false ->
  UD.lookup_param (get_init_params (UD.cls self)) key = None ->
  Forall (fun kv => exists ty r,
              UD.lookup_param (get_init_params (UD.cls self)) (fst kv)
              = Some ty /\
              UD.func self ty (snd kv) = Ok r) pre ->
  exists msg,
    UD.resolve get_init_params self (pre ++ (key, value) :: post)
    = Raise (UnknownFieldError msg)
    /\ In (Fmt key) msg /\ In (Fmt value) msg.
Proof.
  intros Hig Hkey Hpre.
  exists (exn_msg (UD.unknown_field key value)). split.
  - assert (Hrs : exists rs,
               Forall2 (fun kv r =>
                          exists ty,
                            UD.lookup_param (get_init_params (UD.cls self))
                              (fst kv) = Some ty /\
                            UD.func self ty (snd kv) = Ok r) pre rs).
    { induction Hpre as [|kv pre (ty & r & L & F) _ [rs IH]].
      - exists []. constructor.
      - exists (r :: rs). constructor; [now exists ty|assumption]. }
    destruct Hrs as [rs Hrs].
    unfold UD.resolve. rewrite _resolve_dict, for_items_app.
    rewrite (for_items_expected _ _ _ _ rs _ Hrs). simpl.
    now rewrite Hkey, Hig.
  - split; simpl; [right; left; reflexivity | do 3 right; left; reflexivity].
Qed.

Lemma unknown_field_fails_fast_witness :
  exists msg,
    UD.resolve example_init_params
      (UD.__init__ Account int_dispatcher false false)
      ([(VStr "age", VStr "12")] ++ (VStr "bogus", VInt 1) :: [])
    = Raise (UnknownFieldError msg)
    /\ In (Fmt (VStr "bogus")) msg /\ In (Fmt (VInt 1)) msg.
Proof.
  apply (unknown_field_fails_fast example_init_params
           (UD.__init__ Account int_dispatcher false false)).
  - reflexivity.
  - reflexivity.
  - constructor; [|constructor]. exists int_type, (VInt 12).
    split; reflexivity.
Defined.

(** ** Walking the unknown fields *)

(** C4: with [ignore_unknown_fields] and [walk_unknown_fields] both on, an
    unknown field is handled by the shape of its value.  A dict is resolved
    against the same parameters and what is found is merged into the field
    map; a list, set or tuple has this done for each of its items that is a
    dict, in order, the other items being skipped; any other value leaves
    the field map as it was.  A merge lets the later discovery win: a key of
    the merged map takes its value there, any other key keeps the one it
    had.  So [{"wrapper": {"name": "x"}}], for a class whose one parameter
    is [name], gives the field map [{"name": "x"}]. *)
Theorem walk_unknown_fields_merges
  (get_init_params : type_desc -> list (string * type_desc)) (self : UD.t) :
  UD.ignore_unknown_fields self = true ->
  UD.walk_unknown_fields self = true ->
  (forall pre key d,
      UD.lookup_param (get_init_params (UD.cls self)) key = None ->
      UD._resolve get_init_params self (UD.cls self)
        (VDict (pre ++ [(key, VDict d)]))
      = (args <- UD._resolve get_init_params self (UD.cls self) (VDict pre) ;;
         found <- UD._resolve get_init_params self (UD.cls self) (VDict d) ;;
         Ok (dict_update args found)))
  /\ (forall pre key value xs,
        UD.lookup_param (get_init_params (UD.cls self)) key = None ->
        sequence_items value = Some xs ->
        UD._resolve get_init_params self (UD.cls self)
          (VDict (pre ++ [(key, value)]))
        = (args <- UD._resolve get_init_params self (UD.cls self)
                     (VDict pre) ;;
           UD.walk_items (UD._resolve get_init_params self (UD.cls self))
             xs args))
  /\ (forall xs x args,
        UD.walk_items (UD._resolve get_init_params self (UD.cls self)) [] args
        = Ok args
        /\ UD.walk_items (UD._resolve get_init_params self (UD.cls self))
             (xs ++ [x]) args
           = (args' <- UD.walk_items
                         (UD._resolve get_init_params self (UD.cls self))
                         xs args ;;
              if UD.isinstance_dict x
              then found <- UD._resolve get_init_params self (UD.cls self) x ;;
                   Ok (dict_update args' found)
              else Ok args'))
  /\ (forall pre key value,
        UD.lookup_param (get_init_params (UD.cls self)) key = None ->
        UD.isinstance_dict value = false ->
        sequence_items value = None ->
        UD._resolve get_init_params self (UD.cls self)
          (VDict (pre ++ [(key, value)]))
        = UD._resolve get_init_params self (UD.cls self) (VDict pre))
  /\ (forall x args found k,
        UD._resolve get_init_params self (UD.cls self) x = Ok found ->
        dict_get (dict_update args found) k
        = match dict_get found k with
          | Some w => Some w
          | None => dict_get args k
          end)
  /\ (forall ty,
        get_init_params (UD.cls self) = [("name", ty)] ->
        UD.func self ty (VStr "x") = Ok (VStr "x") ->
        UD.resolve get_init_params self
          [(VStr "wrapper", VDict [(VStr "name", VStr "x")])]
        = Ok (VDict [(VStr "name", VStr "x")])).
Proof.
  intros Hig Hwalk.
  refine (conj _ (conj _ (conj _ (conj _ (conj _ _))))).
  - intros pre key d Hkey. rewrite !_resolve_dict, for_items_app.
    destruct (UD.for_items self _ _ pre []) as [args|e]; simpl;
      [|reflexivity].
    rewrite Hkey, Hig, Hwalk. simpl.
    destruct (UD.for_items self _ _ d []); reflexivity.
  - intros pre key value xs Hkey Hxs. rewrite !_resolve_dict, for_items_app.
    destruct (UD.for_items self _ _ pre []) as [args|e]; simpl;
      [|reflexivity].
    rewrite Hkey, Hig, Hwalk. simpl.
    destruct value; try discriminate; injection Hxs as ->;
      now rewrite bind_ok_r.
  - intros xs x args. split; [reflexivity|]. rewrite walk_items_app.
    destruct (UD.walk_items _ xs args) as [args'|e]; simpl; [|reflexivity].
    destruct (UD.isinstance_dict x); [|reflexivity].
    now destruct (UD._resolve get_init_params self (UD.cls self) x).
  - intros pre key value Hkey Hd Hs. rewrite !_resolve_dict, for_items_app.
    destruct (UD.for_items self _ _ pre []) as [args|e]; simpl;
      [|reflexivity].
    rewrite Hkey, Hig, Hwalk. simpl.
    destruct value; try discriminate; reflexivity.
  - intros x args found k E. apply dict_get_update.
    eapply _resolve_wf; eauto.
  - intros ty Hps Hx. unfold UD.resolve. rewrite _resolve_dict. simpl.
    rewrite Hps. simpl. rewrite Hig, Hwalk. simpl. now rewrite Hx.
Qed.

Lemma walk_unknown_fields_merges_witness :
  UD.resolve example_init_params (UD.__init__ Person passthrough true true)
    [(VStr "wrapper", VDict [(VStr "name", VStr "x")])]
  = Ok (VDict [(VStr "name", VStr "x")]).
Proof.
  apply (walk_unknown_fields_merges example_init_params
           (UD.__init__ Person passthrough true true) eq_refl eq_refl
         : _ /\ _ /\ _ /\ _ /\ _ /\ _) with (ty := str_type); reflexivity.
Defined.

(** ** Parameters that the input leaves out *)

Lemma dict_get_some_in (d : dict) (k v : value) :
  dict_get d k = Some v -> exists k0, In (k0, v) d /\ py_eq k0 k = true.
Proof.
  induction d as [|[k0 v0] d IH]; simpl; [discriminate|].
  destruct (py_eq k0 k) eqn:E.
  - intros [= <-]. exists k0. auto.
  - intros H. destruct (IH H) as (k1 & Hin & E1). exists k1. auto.
Qed.

Lemma py_eq_str_r (a : value) (s : string) :
  py_eq a (VStr s) = true -> a = VStr s.
Proof.
  destruct a; simpl; try discriminate.
  intros E. apply String.eqb_eq in E. now subst.
Qed.

(** C10: [resolve] never checks that the expected parameters are all
    given.  On the empty mapping it returns the empty field map, whatever
    the two flags and the parameters are.  Its outcome, field map or
    exception, depends on the parameters only through what they answer for
    the keys of the input: any other parameter list with the same answers
    there, such as the one without the parameters that the input leaves
    out, gives the same outcome.  When every entry of the input is an
    expected field that the dispatcher resolves, [resolve] returns the field
    map of these entries, whatever other parameters are expected.  And a
    returned field map holds keys of the input only, so nothing under a
    name that is no key of the input. *)
Theorem missing_parameters_are_not_checked
  (get_init_params get_init_params' : type_desc -> list (string * type_desc))
  (self : UD.t) (data : dict) :
  (forall k, In k (dict_keys_in (VDict data)) ->
             UD.lookup_param (get_init_params' (UD.cls self)) k
             = UD.lookup_param (get_init_params (UD.cls self)) k) ->
  UD.resolve get_init_params self [] = Ok (VDict [])
  /\ UD.resolve get_init_params' self data
     = UD.resolve get_init_params self data
  /\ (forall rs,
        Forall2 (fun kv r =>
                   exists ty,
                     UD.lookup_param (get_init_params (UD.cls self)) (fst kv)
                     = Some ty /\
                     UD.func self ty (snd kv) = Ok r) data rs ->
        UD.resolve get_init_params self data
        = Ok (VDict (dict_update [] (combine (map fst data) rs))))
  /\ forall args,
      UD.resolve get_init_params self data = Ok (VDict args) ->
      all_keys (fun k => In k (dict_keys_in (VDict data))) args
      /\ forall p,
          ~ In (VStr p) (dict_keys_in (VDict data)) ->
          dict_get args (VStr p) = None.
Proof.
  intros Hk. split; [reflexivity|]. split; [|split].
  - unfold UD.resolve. now rewrite (_resolve_same_lookups get_init_params).
  - intros rs H. unfold UD.resolve. rewrite _resolve_dict.
    now rewrite (for_items_expected _ _ _ _ rs).
  - intros args. unfold UD.resolve.
    destruct (UD._resolve _ self (UD.cls self) (VDict data)) as [a|e] eqn:E;
      simpl; [|discriminate].
    intros [= ->]. pose proof (_resolve_keys_in_data _ _ _ _ _ E) as Hin.
    split; [assumption|].
    intros p Hp. destruct (dict_get args (VStr p)) as [v|] eqn:G;
      [|reflexivity].
    destruct (dict_get_some_in _ _ _ G) as (k0 & Hk0 & E0).
    apply py_eq_str_r in E0. subst k0.
    destruct Hp. exact (Hin _ _ Hk0).
Qed.

Lemma missing_parameters_are_not_checked_witness :
  UD.resolve (fun _ => [("age", int_type); ("name", str_type)])
    (UD.__init__ Person passthrough true true) []
  = Ok (VDict [])
  /\ UD.resolve example_init_params
       (UD.__init__ Person passthrough true true) [(VStr "name", VStr "x")]
     = UD.resolve (fun _ => [("age", int_type); ("name", str_type)])
         (UD.__init__ Person passthrough true true) [(VStr "name", VStr "x")]
  /\ UD.resolve (fun _ => [("age", int_type); ("name", str_type)])
       (UD.__init__ Person passthrough true true) [(VStr "name", VStr "x")]
     = Ok (VDict [(VStr "name", VStr "x")])
  /\ dict_get [(VStr "name", VStr "x")] (VStr "age") = None.
Proof.
  destruct (missing_parameters_are_not_checked
              (fun _ => [("age", int_type); ("name", str_type)])
              example_init_params
              (UD.__init__ Person passthrough true true)
              [(VStr "name", VStr "x")])
    as (Hempty & Hsame & Hok & Hkeys).
  - simpl. intros k [<-|[]]. reflexivity.
  - split; [exact Hempty|]. split; [exact Hsame|].
    assert (R : UD.resolve (fun _ => [("age", int_type); ("name", str_type)])
                  (UD.__init__ Person passthrough true true)
                  [(VStr "name", VStr "x")]
                = Ok (VDict [(VStr "name", VStr "x")])).
    { apply (Hok [VStr "x"]). constructor; [|constructor].
      exists str_type. split; reflexivity. }
    split; [exact R|].
    apply (proj2 (Hkeys _ R) "age"). simpl. intros [E|[]]. discriminate E.
Defined.

(** * Further properties *)

(** ** Failures and composition in the collection delegates *)

Lemma list_comprehension_app (f : value -> result value) (a b : list value) :
  ListArgBuilderDelegate.comprehension f (a ++ b) =
  (ra <- ListArgBuilderDelegate.comprehension f a ;;
   rb <- ListArgBuilderDelegate.comprehension f b ;;
   Ok (ra ++ rb)).
Proof.
  induction a as [|x a IH]; simpl.
  - now destruct (ListArgBuilderDelegate.comprehension f b).
  - destruct (f x) as [r|e]; simpl; [|reflexivity]. rewrite IH.
    destruct (ListArgBuilderDelegate.comprehension f a); simpl; [|reflexivity].
    now destruct (ListArgBuilderDelegate.comprehension f b).
Qed.

(** X1: in the list delegate the first element that the dispatcher rejects
    decides the outcome: when the elements before it are resolved, [resolve]
    raises the exception of that element, whatever comes after it; no
    partial list is returned. *)
Theorem list_resolve_first_failure (self : FD.t) (T : type_desc)
  (rest : list type_desc) (pre post rs : list value) (x : value) (e : exn) :
  ty_args (FD.cls self) = T :: rest ->
  Forall2 (fun y r => FD.func self T y = Ok r) pre rs ->
  FD.func self T x = Raise e ->
  ListArgBuilderDelegate.resolve self (pre ++ x :: post) = Raise e.
Proof.
  intros Hargs Hpre Hx. unfold ListArgBuilderDelegate.resolve.
  rewrite Hargs. simpl. rewrite list_comprehension_app.
  rewrite (list_comprehension_ok _ _ _ Hpre). simpl. now rewrite Hx.
Qed.

Lemma list_resolve_first_failure_witness :
  ListArgBuilderDelegate.resolve
    (FD.__init__ (TyCon "List" [int_type]) int_dispatcher)
    ([VStr "1"] ++ VStr "x" :: [VStr "2"])
  = Raise (ValueError [Lit "invalid literal for int() with base 10: ";
                       Fmt (VStr "x")]).
Proof.
  apply (list_resolve_first_failure
           (FD.__init__ (TyCon "List" [int_type]) int_dispatcher)
           int_type [] [VStr "1"] [VStr "2"] [VInt 1]).
  - reflexivity.
  - repeat constructor.
  - reflexivity.
Defined.

(** X2: the list delegate works element by element: when it resolves two
    inputs, it resolves their concatenation to the concatenation of the two
    results, and then it resolves the empty input to the empty list. *)
Theorem list_resolve_app (self : FD.t) (a b ra rb : list value) :
  ListArgBuilderDelegate.resolve self a = Ok (VList ra) ->
  ListArgBuilderDelegate.resolve self b = Ok (VList rb) ->
  ListArgBuilderDelegate.resolve self (a ++ b) = Ok (VList (ra ++ rb))
  /\ ListArgBuilderDelegate.resolve self [] = Ok (VList []).
Proof.
  unfold ListArgBuilderDelegate.resolve.
  destruct (tuple_index (ty_args (FD.cls self)) 0) as [T|e]; simpl;
    [|discriminate].
  rewrite list_comprehension_app.
  destruct (ListArgBuilderDelegate.comprehension (FD.func self T) a);
    simpl; [|discriminate].
  destruct (ListArgBuilderDelegate.comprehension (FD.func self T) b);
    simpl; [|discriminate].
  intros [= ->] [= ->]. split; reflexivity.
Qed.

Lemma list_resolve_app_witness :
  ListArgBuilderDelegate.resolve
    (FD.__init__ (TyCon "List" [int_type]) int_dispatcher)
    ([VStr "1"] ++ [VStr "2"; VBool true])
  = Ok (VList ([VInt 1] ++ [VInt 2; VInt 1]))
  /\ ListArgBuilderDelegate.resolve
       (FD.__init__ (TyCon "List" [int_type]) int_dispatcher) []
     = Ok (VList []).
Proof.
  apply (list_resolve_app
           (FD.__init__ (TyCon "List" [int_type]) int_dispatcher)
           [VStr "1"] [VStr "2"; VBool true]); reflexivity.
Defined.

Lemma set_comprehension_app (f : value -> result value) (a b acc : list value) :
  SetArgBuilderDelegate.comprehension f (a ++ b) acc =
  (acc' <- SetArgBuilderDelegate.comprehension f a acc ;;
   SetArgBuilderDelegate.comprehension f b acc').
Proof.
  revert acc. induction a as [|x a IH]; intros acc; simpl; [reflexivity|].
  destruct (f x) as [r|e]; simpl; [|reflexivity].
  destruct (set_add acc r); simpl; [apply IH|reflexivity].
Qed.

(** What a successful set comprehension went through. *)
Lemma set_comprehension_inv (f : value -> result value)
  (data acc s : list value) :
  SetArgBuilderDelegate.comprehension f data acc = Ok s ->
  exists rs,
    Forall2 (fun x r => f x = Ok r) data rs /\ forallb hashable rs = true.
Proof.
  revert acc. induction data as [|x data IH]; intros acc; simpl.
  - intros _. exists []. split; [constructor|reflexivity].
  - destruct (f x) as [r|e] eqn:Hx; simpl; [|discriminate].
    unfold set_add, py_hash.
    destruct (unhashable r) eqn:Hr; simpl; [discriminate|].
    intros H. destruct (IH _ H) as (rs & Hrs & Hh).
    exists (r :: rs). split; [now constructor|].
    simpl. unfold hashable at 1. now rewrite Hr.
Qed.

Lemma set_mem_resolved (f : value -> result value) (data rs : list value)
  (v : value) :
  Forall2 (fun x r => f x = Ok r) data rs ->
  set_mem rs v = true <->
  exists x r, In x data /\ f x = Ok r /\ py_eq r v = true.
Proof.
  induction 1 as [|x r data rs Hx _ IH]; simpl.
  - split; [discriminate|]. now intros (x & r & [] & _).
  - rewrite orb_true_iff, IH. split.
    + intros [E|(y & q & Hy & Hq & E)].
      * exists x, r. auto.
      * exists y, q. auto.
    + intros (y & q & [<-|Hy] & Hq & E).
      * left. congruence.
      * right. exists y, q. auto.
Qed.

(** X3: the outcome of the set delegate does not depend on the order in
    which the input yields its elements: when it resolves an input to a
    set, it resolves every rearrangement of that input, and to an equal
    set. *)
Theorem set_resolve_order_irrelevant (self : FD.t)
  (data data' s : list value) :
  Permutation data data' ->
  SetArgBuilderDelegate.resolve self data = Ok (VSet s) ->
  exists s',
    SetArgBuilderDelegate.resolve self data' = Ok (VSet s')
    /\ py_eq (VSet s) (VSet s') = true.
Proof.
  intros Hp. unfold SetArgBuilderDelegate.resolve.
  destruct (tuple_index (ty_args (FD.cls self)) 0) as [T|e]; simpl;
    [|discriminate].
  destruct (SetArgBuilderDelegate.comprehension (FD.func self T) data [])
    as [s0|e] eqn:E; simpl; [|discriminate].
  intros [= ->].
  destruct (set_comprehension_inv _ _ _ _ E) as (rs & Hrs & Hh).
  assert (Hrs' : exists rs',
             Forall2 (fun x r => FD.func self T x = Ok r) data' rs'
             /\ forallb hashable rs' = true).
  { assert (Hall : forall x, In x data' ->
                exists r, FD.func self T x = Ok r /\ hashable r = true).
    { intros x Hx. apply (Permutation_in _ (Permutation_sym Hp)) in Hx.
      clear -Hrs Hh Hx. induction Hrs as [|y r data rs Hy _ IH].
      - destruct Hx.
      - simpl in Hh. apply andb_true_iff in Hh. destruct Hh as [Hr Hh].
        destruct Hx as [<-|Hx]; [now exists r|now apply IH]. }
    clear -Hall. induction data' as [|x data' IH].
    - exists []. split; [constructor|reflexivity].
    - destruct (Hall x (or_introl eq_refl)) as (r & Hx & Hr).
      destruct IH as (rs' & Hrs' & Hh'); [intros y Hy; apply Hall; now right|].
      exists (r :: rs'). split; [now constructor|]. simpl. now rewrite Hr. }
  destruct Hrs' as (rs' & Hrs' & Hh').
  rewrite (set_comprehension_ok _ _ _ [] Hrs Hh) in E. injection E as <-.
  rewrite (set_comprehension_ok _ _ _ [] Hrs' Hh'). simpl.
  eexists. split; [reflexivity|].
  assert (Hmem : forall v, set_mem rs v = true <-> set_mem rs' v = true).
  { intros v. rewrite (set_mem_resolved _ _ _ v Hrs),
      (set_mem_resolved _ _ _ v Hrs').
    split; intros (x & r & Hx & Hr & Ev); exists x, r; repeat split; auto.
    - now apply (Permutation_in _ Hp).
    - now apply (Permutation_in _ (Permutation_sym Hp)). }
  assert (Hself : forall l x, In x l -> set_mem l x = true).
  { intros l x Hx. apply existsb_exists. exists x.
    split; [assumption|apply py_eq_refl]. }
  simpl. apply andb_true_iff. split; apply covers_iff; intros x Hx.
  - apply Hself in Hx. rewrite set_fold_mem in Hx. simpl in Hx.
    apply Hmem in Hx.
    assert (M : set_mem (fold_left (fun s r => if set_mem s r then s
                                               else s ++ [r]) rs' []) x = true)
      by (rewrite set_fold_mem; exact Hx).
    apply existsb_exists in M. destruct M as (y & Hy & Ey).
    exists y. split; [assumption|]. now rewrite py_eq_sym.
  - apply Hself in Hx. rewrite set_fold_mem in Hx. simpl in Hx.
    apply Hmem in Hx.
    assert (M : set_mem (fold_left (fun s r => if set_mem s r then s
                                               else s ++ [r]) rs []) x = true)
      by (rewrite set_fold_mem; exact Hx).
    apply existsb_exists in M. destruct M as (y & Hy & Ey).
    exists y. split; assumption.
Qed.

Lemma set_resolve_order_irrelevant_witness :
  exists s',
    SetArgBuilderDelegate.resolve
      (FD.__init__ (TyCon "Set" [int_type]) int_dispatcher)
      [VStr "2"; VStr "1"] = Ok (VSet s')
    /\ py_eq (VSet [VInt 1; VInt 2]) (VSet s') = true.
Proof.
  apply (set_resolve_order_irrelevant
           (FD.__init__ (TyCon "Set" [int_type]) int_dispatcher)
           [VStr "1"; VStr "2"] [VStr "2"; VStr "1"]).
  - apply perm_swap.
  - reflexivity.
Defined.

(** X4: the set delegate fails at the first element that is rejected or
    whose resolved value cannot be hashed: when the elements before it are
    resolved to hashable values, [resolve] raises the dispatcher's exception
    for a rejected element, and [TypeError] for a resolved element of an
    unhashable type such as a list. *)
Theorem set_resolve_failures (self : FD.t) (T : type_desc)
  (rest : list type_desc) (pre post rs : list value) (x : value) :
  ty_args (FD.cls self) = T :: rest ->
  Forall2 (fun y r => FD.func self T y = Ok r) pre rs ->
  forallb hashable rs = true ->
  (forall e,
      FD.func self T x = Raise e ->
      SetArgBuilderDelegate.resolve self (pre ++ x :: post) = Raise e)
  /\ (forall r n,
        FD.func self T x = Ok r ->
        unhashable r = Some n ->
        SetArgBuilderDelegate.resolve self (pre ++ x :: post)
        = Raise (TypeError [Lit "unhashable type: '"; Lit n; Lit "'"])).
Proof.
  intros Hargs Hpre Hh.
  assert (E : SetArgBuilderDelegate.resolve self (pre ++ x :: post) =
              (s <- (acc <- Ok (fold_left
                                  (fun s r => if set_mem s r then s
                                              else s ++ [r]) rs []) ;;
                     SetArgBuilderDelegate.comprehension (FD.func self T)
                       (x :: post) acc) ;;
               Ok (VSet s))).
  { unfold SetArgBuilderDelegate.resolve. rewrite Hargs. simpl.
    rewrite set_comprehension_app.
    now rewrite (set_comprehension_ok _ _ _ [] Hpre Hh). }
  rewrite E. simpl. split.
  - intros e Hx. now rewrite Hx.
  - intros r n Hx Hr. rewrite Hx. simpl. unfold set_add, py_hash.
    now rewrite Hr.
Qed.

Lemma set_resolve_failures_witness :
  SetArgBuilderDelegate.resolve
    (FD.__init__ (TyCon "Set" [TyCon "List" [int_type]]) passthrough)
    ([VStr "a"] ++ VList [VInt 1] :: [])
  = Raise (TypeError [Lit "unhashable type: '"; Lit "list"; Lit "'"]).
Proof.
  destruct (set_resolve_failures
              (FD.__init__ (TyCon "Set" [TyCon "List" [int_type]]) passthrough)
              (TyCon "List" [int_type]) [] [VStr "a"] [] [VStr "a"]
              (VList [VInt 1])) as [_ H].
  - reflexivity.
  - repeat constructor.
  - reflexivity.
  - apply (H (VList [VInt 1]) "list"); reflexivity.
Defined.

Lemma dict_comprehension_app (f g : value -> result value) (a b acc : dict) :
  DictArgBuilderDelegate.comprehension f g (a ++ b) acc =
  (acc' <- DictArgBuilderDelegate.comprehension f g a acc ;;
   DictArgBuilderDelegate.comprehension f g b acc').
Proof.
  revert acc. induction a as [|[key value] a IH]; intros acc; simpl;
    [reflexivity|].
  destruct (f key) as [k|e]; simpl; [|reflexivity].
  destruct (g value) as [v|e]; simpl; [|reflexivity].
  destruct (dict_setitem acc k v); simpl; [apply IH|reflexivity].
Qed.

(** X5: the dict delegate fails at the first entry that cannot be stored:
    when the entries before it are resolved, with hashable keys, [resolve]
    raises the dispatcher's exception for a rejected key whose value is
    resolved, or for a rejected value whose key is resolved, and
    [TypeError] when the resolved key is of an unhashable type, the value
    being resolved. *)
Theorem dict_resolve_failures (self : FD.t) (K V : type_desc)
  (rest : list type_desc) (pre post rs : dict) (key value : value) :
  ty_args (FD.cls self) = K :: V :: rest ->
  Forall2 (fun kv r => FD.func self K (fst kv) = Ok (fst r) /\
                       FD.func self V (snd kv) = Ok (snd r)) pre rs ->
  forallb (fun r => hashable (fst r)) rs = true ->
  (forall e v,
      FD.func self K key = Raise e -> FD.func self V value = Ok v ->
      DictArgBuilderDelegate.resolve self (pre ++ (key, value) :: post)
      = Raise e)
  /\ (forall e k,
        FD.func self K key = Ok k -> FD.func self V value = Raise e ->
        DictArgBuilderDelegate.resolve self (pre ++ (key, value) :: post)
        = Raise e)
  /\ (forall k v n,
        FD.func self K key = Ok k -> FD.func self V value = Ok v ->
        unhashable k = Some n ->
        DictArgBuilderDelegate.resolve self (pre ++ (key, value) :: post)
        = Raise (TypeError [Lit "unhashable type: '"; Lit n; Lit "'"])).
Proof.
  intros Hargs Hpre Hh.
  assert (E : DictArgBuilderDelegate.resolve self (pre ++ (key, value) :: post)
              = (d <- DictArgBuilderDelegate.comprehension (FD.func self K)
                        (FD.func self V) ((key, value) :: post)
                        (dict_update [] rs) ;;
                 Ok (VDict d))).
  { unfold DictArgBuilderDelegate.resolve. rewrite Hargs. simpl.
    rewrite dict_comprehension_app.
    now rewrite (dict_comprehension_ok _ _ _ _ [] Hpre Hh). }
  rewrite E. simpl. split; [|split].
  - intros e v Hk Hv. now rewrite Hk.
  - intros e k Hk Hv. now rewrite Hk, Hv.
  - intros k v n Hk Hv Hn. rewrite Hk, Hv. simpl.
    unfold dict_setitem, py_hash. now rewrite Hn.
Qed.

Lemma dict_resolve_failures_witness :
  DictArgBuilderDelegate.resolve
    (FD.__init__ (TyCon "Dict" [int_type; str_type]) int_dispatcher)
    ([(VStr "1", VStr "a")] ++ (VStr "x", VStr "b") :: [])
  = Raise (ValueError [Lit "invalid literal for int() with base 10: ";
                       Fmt (VStr "x")]).
Proof.
  destruct (dict_resolve_failures
              (FD.__init__ (TyCon "Dict" [int_type; str_type]) int_dispatcher)
              int_type str_type [] [(VStr "1", VStr "a")] []
              [(VInt 1, VStr "a")] (VStr "x") (VStr "b")) as [H _].
  - reflexivity.
  - repeat constructor.
  - reflexivity.
  - apply (H _ (VStr "b")); reflexivity.
Defined.

(** ** The generator of the tuple delegate, call by call *)

Lemma gen_yields_resolved (f : value -> result value)
  (pre rs tail : list value) :
  Forall2 (fun y r => f y = Ok r) pre rs ->
  gen_yields (List.length pre) {| gen_body := f; gen_pending := pre ++ tail |}
  = Some (rs, {| gen_body := f; gen_pending := tail |}).
Proof.
  induction 1 as [|y r pre rs Hy _ IH]; simpl; [reflexivity|].
  unfold gen_next. simpl. rewrite Hy. now rewrite IH.
Qed.

(** X6: the generator of the tuple delegate resolves one item per call of
    [next], so a rejected item shows only when it is reached.  When the
    items before it are resolved, [resolve] still returns a generator; its
    first calls yield these resolved items in order; the next call raises
    the exception of the rejected item; and from then on the generator is
    exhausted, the items after the rejected one being left unresolved. *)
Theorem tuple_generator_steps (self : FD.t) (T : type_desc)
  (rest : list type_desc) (pre post rs : list value) (x : value) (e : exn) :
  ty_args (FD.cls self) = T :: rest ->
  Forall2 (fun y r => FD.func self T y = Ok r) pre rs ->
  FD.func self T x = Raise e ->
  exists g g1 g2,
    TupleArgBuilderDelegate.resolve self (pre ++ x :: post) = Ok g
    /\ gen_yields (List.length pre) g = Some (rs, g1)
    /\ gen_next g1 = Raised e g2
    /\ gen_next g2 = StopIteration.
Proof.
  intros Hargs Hpre Hx.
  exists {| gen_body := FD.func self T; gen_pending := pre ++ x :: post |},
    {| gen_body := FD.func self T; gen_pending := x :: post |},
    {| gen_body := FD.func self T; gen_pending := [] |}.
  split; [|split; [|split]].
  - unfold TupleArgBuilderDelegate.resolve. now rewrite Hargs.
  - now apply gen_yields_resolved.
  - unfold gen_next. simpl. now rewrite Hx.
  - reflexivity.
Qed.

Lemma tuple_generator_steps_witness :
  exists g g1 g2,
    TupleArgBuilderDelegate.resolve
      (FD.__init__ (TyCon "Tuple" [int_type; str_type]) int_dispatcher)
      ([VStr "1"] ++ VStr "x" :: [VStr "3"]) = Ok g
    /\ gen_yields (List.length [VStr "1"]) g = Some ([VInt 1], g1)
    /\ gen_next g1
       = Raised (ValueError [Lit "invalid literal for int() with base 10: ";
                             Fmt (VStr "x")]) g2
    /\ gen_next g2 = StopIteration.
Proof.
  apply (tuple_generator_steps
           (FD.__init__ (TyCon "Tuple" [int_type; str_type]) int_dispatcher)
           int_type [str_type] [VStr "1"] [VStr "3"] [VInt 1] (VStr "x")).
  - reflexivity.
  - repeat constructor.
  - reflexivity.
Defined.

(** ** Building and using the enum table *)

Lemma build_table_app (cls : enum_class) (pre post : list enum_member)
  (table : dict) :
  CE.build_table cls (pre ++ post) table =
  (table' <- CE.build_table cls pre table ;; CE.build_table cls post table').
Proof.
  revert table. induction pre as [|v pre IH]; intros table; simpl;
    [reflexivity|].
  destruct (dict_setitem table (member_value v) (member_object cls v));
    simpl; [apply IH|reflexivity].
Qed.

Lemma fold_table_wf (cls : enum_class) (members : list enum_member)
  (table : dict) :
  dict_wf table ->
  dict_wf (fold_left
             (fun t v => dict_set t (member_value v) (member_object cls v))
             members table).
Proof.
  revert table. induction members as [|v members IH]; intros table H; simpl;
    [assumption|]. apply IH. now apply dict_set_wf.
Qed.

(** X7: the constructor of the cached delegate builds its table exactly
    when every member value is hashable; otherwise it raises [TypeError]
    for the first member value that is not.  It prints its warning exactly
    when the enum has at most 20 members, whether or not the table can be
    built.  A table that is built has pairwise different keys, holds every
    member value as a key, and binds a key only to a member whose value
    equals it. *)
Theorem cached_enum_init (cls : enum_class) :
  ((exists self, snd (CE.__init__ cls) = Ok self) <->
   (forall v, In v (enum_members cls) -> hashable (member_value v) = true))
  /\ (forall pre v post n,
        enum_members cls = pre ++ v :: post ->
        (forall w, In w pre -> hashable (member_value w) = true) ->
        unhashable (member_value v) = Some n ->
        snd (CE.__init__ cls)
        = Raise (TypeError [Lit "unhashable type: '"; Lit n; Lit "'"]))
  /\ (fst (CE.__init__ cls) = [] <->
      (20 < List.length (enum_members cls))%nat)
  /\ (forall self,
        snd (CE.__init__ cls) = Ok self ->
        CE.cls self = cls
        /\ dict_wf (CE._table self)
        /\ (forall v, In v (enum_members cls) ->
                      dict_get (CE._table self) (member_value v) <> None)
        /\ (forall key m,
              dict_get (CE._table self) key = Some m ->
              exists w, In w (enum_members cls)
                        /\ m = member_object cls w
                        /\ py_eq (member_value w) key = true)).
Proof.
  split; [|split; [|split]].
  - unfold CE.__init__. simpl. split.
    + intros [self H].
      destruct (CE.build_table cls (enum_members cls) []) eqn:B;
        [|discriminate].
      eapply build_table_hashable; eauto.
    + intros H. rewrite (build_table_fold cls _ [] H). simpl. eauto.
  - intros pre v post n Hm Hpre Hn. unfold CE.__init__. simpl.
    rewrite Hm, build_table_app, (build_table_fold cls pre [] Hpre). simpl.
    unfold dict_setitem, py_hash. now rewrite Hn.
  - unfold CE.__init__. simpl.
    destruct (Nat.leb_spec (List.length (enum_members cls)) 20).
    + split; [discriminate|lia].
    + split; [lia|reflexivity].
  - intros self H. unfold CE.__init__ in H. simpl in H.
    destruct (CE.build_table cls (enum_members cls) []) as [table|e] eqn:B;
      simpl in H; [|discriminate].
    injection H as <-. simpl.
    rewrite build_table_fold in B by (eapply build_table_hashable; eauto).
    injection B as <-.
    split; [reflexivity|]. split; [apply fold_table_wf; exact I|]. split.
    + intros v Hv. rewrite table_get.
      destruct (find _ (rev (enum_members cls))) eqn:F; [discriminate|].
      apply in_rev in Hv. pose proof (find_none _ _ F v Hv) as N.
      simpl in N. now rewrite py_eq_refl in N.
    + intros key m. rewrite table_get.
      destruct (find _ (rev (enum_members cls))) as [w|] eqn:F;
        [|discriminate].
      intros [= <-]. apply find_some in F. destruct F as [Hw Ew].
      exists w. split; [now apply in_rev|]. split; [reflexivity|assumption].
Qed.

Lemma cached_enum_init_witness :
  (exists self, snd (CE.__init__ Color) = Ok self)
  /\ fst (CE.__init__ Color) <> [].
Proof.
  destruct (cached_enum_init Color) as (Hbuilt & _ & Hprint & _). split.
  - apply Hbuilt. intros v [<-|[<-|[]]]; reflexivity.
  - intros E. apply Hprint in E. simpl in E. lia.
Defined.

(** X8: each member is found again from its own value: for an enum whose
    cached delegate is built, both the linear scan and the cached table
    resolve the value of a member to that member. *)
Theorem enum_member_round_trip (cls : enum_class) (self : CE.t)
  (v : enum_member) :
  enum_members_distinct cls ->
  snd (CE.__init__ cls) = Ok self ->
  In v (enum_members cls) ->
  LE.resolve (LE.__init__ cls) (member_value v) = Ok (member_object cls v)
  /\ CE.resolve self (member_value v) = Ok (member_object cls v).
Proof.
  intros Hd Hinit Hv.
  assert (L : LE.resolve (LE.__init__ cls) (member_value v)
              = Ok (member_object cls v))
    by (apply enum_resolve_member; auto using py_eq_refl).
  split; [assumption|].
  rewrite (enum_delegates_agree_on_hashable cls _ self); auto.
  unfold CE.__init__ in Hinit. simpl in Hinit.
  destruct (CE.build_table cls (enum_members cls) []) eqn:B; [|discriminate].
  eapply build_table_hashable; eauto.
Qed.

Lemma enum_member_round_trip_witness :
  LE.resolve (LE.__init__ Color) (VInt 2) = Ok (VEnum "Color" "GREEN" (VInt 2))
  /\ CE.resolve (CE.mk Color [(VInt 1, VEnum "Color" "RED" (VInt 1));
                              (VInt 2, VEnum "Color" "GREEN" (VInt 2))])
       (VInt 2)
     = Ok (VEnum "Color" "GREEN" (VInt 2)).
Proof.
  apply (enum_member_round_trip Color
           (CE.mk Color [(VInt 1, VEnum "Color" "RED" (VInt 1));
                         (VInt 2, VEnum "Color" "GREEN" (VInt 2))])
           {| member_name := "GREEN"; member_value := VInt 2 |}).
  - intros a b [<-|[<-|[]]] [<-|[<-|[]]]; simpl; try reflexivity;
      discriminate.
  - reflexivity.
  - right. left. reflexivity.
Defined.

(** X9: the cached table and the linear scan give the same outcome, member
    or [UnknownFieldError], on every hashable input, and only there: on an
    unhashable input the table lookup raises [TypeError] and the scan raises
    [UnknownFieldError]. *)
Theorem enum_delegates_agree_exactly_on_hashable (cls : enum_class)
  (self : CE.t) (data : value) :
  enum_members_distinct cls ->
  snd (CE.__init__ cls) = Ok self ->
  (hashable data = true ->
   CE.resolve self data = LE.resolve (LE.__init__ cls) data)
  /\ (hashable data = false ->
      exists n,
        CE.resolve self data
        = Raise (TypeError [Lit "unhashable type: '"; Lit n; Lit "'"])
        /\ LE.resolve (LE.__init__ cls) data
           = Raise (invalid_enum_value cls data)).
Proof.
  intros Hd Hinit. split.
  - now apply enum_delegates_agree_on_hashable.
  - unfold hashable. destruct (unhashable data) as [n|] eqn:Hn;
      [|discriminate].
    intros _. exists n. now apply enum_delegates_on_unhashable.
Qed.

Lemma enum_delegates_agree_exactly_on_hashable_witness :
  CE.resolve (CE.mk Color [(VInt 1, VEnum "Color" "RED" (VInt 1));
                           (VInt 2, VEnum "Color" "GREEN" (VInt 2))])
    (VBool true)
  = LE.resolve (LE.__init__ Color) (VBool true).
Proof.
  destruct (enum_delegates_agree_exactly_on_hashable Color
              (CE.mk Color [(VInt 1, VEnum "Color" "RED" (VInt 1));
                            (VInt 2, VEnum "Color" "GREEN" (VInt 2))])
              (VBool true)) as [H _].
  - intros a b [<-|[<-|[]]] [<-|[<-|[]]]; simpl; try reflexivity;
      discriminate.
  - reflexivity.
  - apply H. reflexivity.
Defined.

(** ** The policies of the composite delegate *)

Lemma for_items_ignore_filter (self : UD.t) (ps : list (string * type_desc))
  (recur : value -> result dict) (items args : dict) :
  UD.ignore_unknown_fields self = true ->
  UD.walk_unknown_fields self = false ->
  UD.for_items self ps recur items args =
  UD.for_items self ps recur
    (filter (fun kv => is_param ps (fst kv)) items) args.
Proof.
  intros Hig Hwalk. revert args.
  induction items as [|[key value] items IH]; intros args; simpl;
    [reflexivity|].
  unfold is_param at 1. simpl.
  destruct (UD.lookup_param ps key) as [ty|] eqn:L; simpl.
  - rewrite L. destruct (UD.func self ty value); simpl; [|reflexivity].
    destruct (dict_setitem args key a); simpl; [apply IH|reflexivity].
  - rewrite Hig, Hwalk. simpl. apply IH.
Qed.

(** X10: with [ignore_unknown_fields] on and [walk_unknown_fields] off the
    unknown fields are dropped and nothing else: the outcome of [resolve]
    is its outcome on the input without the entries whose key is no
    parameter; so when the dispatcher resolves the values of the expected
    entries, [resolve] returns the field map of these entries alone. *)
Theorem composite_drops_unknown_fields
  (get_init_params : type_desc -> list (string * type_desc)) (self : UD.t)
  (data : dict) :
  UD.ignore_unknown_fields self = true ->
  UD.walk_unknown_fields self = false ->
  UD.resolve get_init_params self data
  = UD.resolve get_init_params self
      (filter (fun kv => is_param (get_init_params (UD.cls self)) (fst kv))
         data)
  /\ forall rs,
      Forall2 (fun kv r =>
                 exists ty,
                   UD.lookup_param (get_init_params (UD.cls self)) (fst kv)
                   = Some ty /\
                   UD.func self ty (snd kv) = Ok r)
        (filter (fun kv => is_param (get_init_params (UD.cls self)) (fst kv))
           data) rs ->
      UD.resolve get_init_params self data
      = Ok (VDict (dict_update []
                     (combine
                        (map fst
                           (filter
                              (fun kv => is_param
                                           (get_init_params (UD.cls self))
                                           (fst kv)) data)) rs))).
Proof.
  intros Hig Hwalk.
  assert (E : UD.resolve get_init_params self data
              = UD.resolve get_init_params self
                  (filter (fun kv => is_param (get_init_params (UD.cls self))
                                       (fst kv)) data)).
  { unfold UD.resolve. rewrite !_resolve_dict.
    now rewrite (for_items_ignore_filter self _ _ data). }
  split; [exact E|].
  intros rs H. rewrite E. unfold UD.resolve. rewrite _resolve_dict.
  now rewrite (for_items_expected _ _ _ _ rs).
Qed.

Lemma composite_drops_unknown_fields_witness :
  UD.resolve example_init_params (UD.__init__ Account int_dispatcher true false)
    [(VStr "bogus", VDict [(VStr "age", VStr "7")]); (VStr "age", VStr "12")]
  = Ok (VDict [(VStr "age", VInt 12)]).
Proof.
  destruct (composite_drops_unknown_fields example_init_params
              (UD.__init__ Account int_dispatcher true false)
              [(VStr "bogus", VDict [(VStr "age", VStr "7")]);
               (VStr "age", VStr "12")] eq_refl eq_refl) as [_ H].
  apply (H [VInt 12]). constructor; [|constructor].
  exists int_type. split; reflexivity.
Defined.

Lemma for_items_strict_walk (cls : type_desc) (func : dispatcher)
  (w1 w2 : bool) (ps : list (string * type_desc))
  (recur1 recur2 : value -> result dict) (items args : dict) :
  UD.for_items (UD.__init__ cls func false w1) ps recur1 items args =
  UD.for_items (UD.__init__ cls func false w2) ps recur2 items args.
Proof.
  revert args. induction items as [|[key value] items IH]; intros args; simpl;
    [reflexivity|].
  destruct (UD.lookup_param ps key) as [ty|]; [|reflexivity].
  destruct (func ty value); simpl; [|reflexivity].
  destruct (dict_setitem args key a); simpl; [apply IH|reflexivity].
Qed.

Lemma for_items_all_params (cls : type_desc) (func : dispatcher)
  (i1 w1 i2 w2 : bool) (ps : list (string * type_desc))
  (recur1 recur2 : value -> result dict) (items args : dict) :
  forallb (fun kv => is_param ps (fst kv)) items = true ->
  UD.for_items (UD.__init__ cls func i1 w1) ps recur1 items args =
  UD.for_items (UD.__init__ cls func i2 w2) ps recur2 items args.
Proof.
  revert args. induction items as [|[key value] items IH]; intros args; simpl;
    [reflexivity|].
  unfold is_param at 1. simpl.
  destruct (UD.lookup_param ps key) as [ty|]; simpl; [|discriminate].
  intros H. destruct (func ty value); simpl; [|reflexivity].
  destruct (dict_setitem args key a); simpl; [now apply IH|reflexivity].
Qed.

(** X11: the flags matter only where the code reads them.  With
    [ignore_unknown_fields] off, [walk_unknown_fields] has no effect on the
    outcome of [resolve]; and on an input whose keys are all parameters,
    neither flag has any. *)
Theorem composite_flags_irrelevant
  (get_init_params : type_desc -> list (string * type_desc))
  (cls : type_desc) (func : dispatcher) (data : dict) :
  (forall w1 w2,
      UD.resolve get_init_params (UD.__init__ cls func false w1) data
      = UD.resolve get_init_params (UD.__init__ cls func false w2) data)
  /\ (forallb (fun kv => is_param (get_init_params cls) (fst kv)) data = true ->
      forall i1 w1 i2 w2,
        UD.resolve get_init_params (UD.__init__ cls func i1 w1) data
        = UD.resolve get_init_params (UD.__init__ cls func i2 w2) data).
Proof.
  split.
  - intros w1 w2. unfold UD.resolve. rewrite !_resolve_dict. simpl.
    now rewrite (for_items_strict_walk cls func w1 w2 _ _
                   (UD._resolve get_init_params
                      (UD.__init__ cls func false w2) cls)).
  - intros H i1 w1 i2 w2. unfold UD.resolve. rewrite !_resolve_dict. simpl.
    now rewrite (for_items_all_params cls func i1 w1 i2 w2 _ _
                   (UD._resolve get_init_params
                      (UD.__init__ cls func i2 w2) cls) _ _ H).
Qed.

Lemma composite_flags_irrelevant_witness :
  UD.resolve example_init_params (UD.__init__ Account int_dispatcher false true)
    [(VStr "age", VStr "12")]
  = UD.resolve example_init_params (UD.__init__ Account int_dispatcher true false)
      [(VStr "age", VStr "12")].
Proof.
  apply (proj2 (composite_flags_irrelevant example_init_params Account
                  int_dispatcher [(VStr "age", VStr "12")])).
  reflexivity.
Defined.

(** ** Where the exceptions of the composite delegate come from *)

Lemma lookup_param_some_in (ps : list (string * type_desc)) (key : value)
  (ty : type_desc) :
  UD.lookup_param ps key = Some ty -> exists p, In (p, ty) ps.
Proof.
  induction ps as [|[p t] ps IH]; [discriminate|].
  cbn [UD.lookup_param]. destruct (py_eq (VStr p) key).
  - intros [= ->]. exists p. now left.
  - intros H. destruct (IH H) as [q Hq]. exists q. now right.
Qed.

Lemma walk_items_raise (recur : value -> result dict) (xs : list value)
  (args : dict) (e : exn) :
  UD.walk_items recur xs args = Raise e ->
  exists x, In x xs /\ UD.isinstance_dict x = true /\ recur x = Raise e.
Proof.
  revert args. induction xs as [|x xs IH]; intros args; simpl;
    [discriminate|].
  destruct (UD.isinstance_dict x) eqn:D.
  - destruct (recur x) as [f|e'] eqn:Rx; simpl.
    + intros H. destruct (IH _ H) as (y & Hy & Dy & Ry). exists y. auto.
    + intros [= <-]. exists x. auto.
  - intros H. destruct (IH _ H) as (y & Hy & Dy & Ry). exists y. auto.
Qed.

(** A failure of the loop is an unknown key, a rejection by the dispatcher,
    or the failure of a recursive call on a dict found while walking. *)
Lemma for_items_raise (self : UD.t) (ps : list (string * type_desc))
  (recur : value -> result dict) (items args : dict) (e : exn) :
  UD.for_items self ps recur items args = Raise e ->
  (UD.ignore_unknown_fields self = false /\
   exists key value,
     In (key, value) items /\ UD.lookup_param ps key = None /\
     e = UD.unknown_field key value)
  \/ (exists p ty x, In (p, ty) ps /\ UD.func self ty x = Raise e)
  \/ (UD.ignore_unknown_fields self = true /\
      exists x, walked items x /\ UD.isinstance_dict x = true /\
                recur x = Raise e).
Proof.
  revert args. induction items as [|[key value] items IH]; intros args; simpl;
    [discriminate|].
  assert (Later : forall a,
             UD.for_items self ps recur items a = Raise e ->
             (UD.ignore_unknown_fields self = false /\
              exists k v,
                (( key, value) = (k, v) \/ In (k, v) items) /\
                UD.lookup_param ps k = None /\ e = UD.unknown_field k v)
             \/ (exists p ty x, In (p, ty) ps /\ UD.func self ty x = Raise e)
             \/ (UD.ignore_unknown_fields self = true /\
                 exists x, walked ((key, value) :: items) x /\
                           UD.isinstance_dict x = true /\ recur x = Raise e)).
  { intros a H. destruct (IH _ H) as [(Hi & k & v & Hin & L & E)|[F|(Hi & x & (k & v & Hin & Hx) & D & Rx)]].
    - left. split; [assumption|]. exists k, v. auto.
    - right. left. assumption.
    - right. right. split; [assumption|]. exists x.
      split; [|auto]. exists k, v. split; [now right|assumption]. }
  assert (Seq : forall xs,
             sequence_items value = Some xs ->
             UD.ignore_unknown_fields self = true ->
             forall a, UD.walk_items recur xs a = Raise e ->
             exists x, walked ((key, value) :: items) x /\
                       UD.isinstance_dict x = true /\ recur x = Raise e).
  { intros xs Hs Hi a H. destruct (walk_items_raise _ _ _ _ H) as (x & Hx & D & Rx).
    exists x. split; [|auto]. exists key, value.
    split; [now left|]. right. now exists xs. }
  destruct (UD.lookup_param ps key) as [ty|] eqn:L.
  - destruct (UD.func self ty value) as [r|e'] eqn:F; simpl.
    + destruct (lookup_param_str _ _ _ L) as [s ->]. simpl. apply Later.
    + intros [= <-]. right. left.
      destruct (lookup_param_some_in _ _ _ L) as [p Hp]. now exists p, ty, value.
  - destruct (UD.ignore_unknown_fields self) eqn:Hi; simpl.
    + destruct (UD.walk_unknown_fields self); [|apply Later].
      destruct value; try apply Later;
        try (destruct (UD.walk_items recur xs args) as [a|e'] eqn:W; simpl;
             [apply Later|];
             intros [= <-]; right; right; split; [reflexivity|];
             now apply (Seq xs eq_refl eq_refl args)).
      destruct (recur (VDict kvs)) as [f|e'] eqn:Rx; simpl; [apply Later|].
      intros [= <-]. right. right. split; [reflexivity|].
      exists (VDict kvs). split; [|auto]. exists key, (VDict kvs).
      split; now left.
    + intros [= <-]. left. split; [reflexivity|]. exists key, value. auto.
Qed.

(** X12: [resolve] raises nothing of its own but the [UnknownFieldError]
    of an unknown key.  Whenever it fails, either [ignore_unknown_fields]
    is off and the exception is the [UnknownFieldError] for an entry of the
    input whose key is no parameter, or the exception is one that the
    dispatcher raised when called with the type of a declared parameter. *)
Theorem composite_exception_provenance
  (get_init_params : type_desc -> list (string * type_desc)) (self : UD.t)
  (data : dict) (e : exn) :
  UD.resolve get_init_params self data = Raise e ->
  (UD.ignore_unknown_fields self = false /\
   exists key value,
     In (key, value) data /\
     UD.lookup_param (get_init_params (UD.cls self)) key = None /\
     e = UD.unknown_field key value)
  \/ (exists p ty x,
        In (p, ty) (get_init_params (UD.cls self)) /\
        UD.func self ty x = Raise e).
Proof.
  assert (Nested : forall v e',
             UD.ignore_unknown_fields self = true ->
             UD.isinstance_dict v = true ->
             UD._resolve get_init_params self (UD.cls self) v = Raise e' ->
             exists p ty x,
               In (p, ty) (get_init_params (UD.cls self)) /\
               UD.func self ty x = Raise e').
  { intros v. induction v as [items IH | v Hv] using resolve_ind;
      intros e' Hi D; [|congruence].
    rewrite _resolve_dict. intros H.
    destruct (for_items_raise _ _ _ _ _ _ H)
      as [(Hi' & _)|[F|(_ & x & Hx & Dx & Rx)]].
    - congruence.
    - assumption.
    - now apply (IH x Hx e'). }
  unfold UD.resolve.
  destruct (UD._resolve get_init_params self (UD.cls self) (VDict data))
    as [args|e'] eqn:E; simpl; [discriminate|].
  intros [= ->]. rewrite _resolve_dict in E.
  destruct (for_items_raise _ _ _ _ _ _ E)
    as [H|[F|(Hi & x & Hx & Dx & Rx)]].
  - now left.
  - now right.
  - right. now apply (Nested x e).
Qed.

Lemma composite_exception_provenance_witness :
  (UD.ignore_unknown_fields (UD.__init__ Account int_dispatcher false false)
   = false /\
   exists key value,
     In (key, value) [(VStr "age", VStr "12"); (VStr "bogus", VInt 1)] /\
     UD.lookup_param (example_init_params Account) key = None /\
     UD.unknown_field (VStr "bogus") (VInt 1) = UD.unknown_field key value)
  \/ (exists p ty x,
        In (p, ty) (example_init_params Account) /\
        int_dispatcher ty x
        = Raise (UD.unknown_field (VStr "bogus") (VInt 1))).
Proof.
  apply (composite_exception_provenance example_init_params
           (UD.__init__ Account int_dispatcher false false)
           [(VStr "age", VStr "12"); (VStr "bogus", VInt 1)]).
  reflexivity.
Defined.

(** ** What walking finds and what it does not *)

Lemma dict_set_fresh (a : dict) (k v : value) :
  (forall k0 v0, In (k0, v0) a -> py_eq k0 k = false) ->
  dict_set a k v = a ++ [(k, v)].
Proof.
  induction a as [|[k0 v0] a IH]; simpl; intros H; [reflexivity|].
  rewrite (H k0 v0) by now left. f_equal. apply IH.
  intros k1 v1 H1. apply (H k1 v1). now right.
Qed.

Lemma dict_wf_app_fresh (a d : dict) (k v : value) :
  dict_wf (a ++ (k, v) :: d) ->
  forall k0 v0, In (k0, v0) a -> py_eq k0 k = false.
Proof.
  induction a as [|[k1 v1] a IH]; simpl; [intros _ k0 v0 []|].
  intros [Hk Hwf] k0 v0 [[= <- <-]|Hin]; [|now apply (IH Hwf k0 v0)].
  rewrite dict_get_app in Hk. destruct (dict_get a k1); [discriminate|].
  simpl in Hk. rewrite py_eq_sym. now destruct (py_eq k k1).
Qed.

(** Merging a dict into one that shares no key with it appends it. *)
Lemma dict_update_fresh (a d : dict) :
  dict_wf (a ++ d) -> dict_update a d = a ++ d.
Proof.
  revert a. induction d as [|[k v] d IH]; intros a H.
  - now rewrite app_nil_r.
  - change (dict_update a ((k, v) :: d)) with (dict_update (dict_set a k v) d).
    rewrite (dict_set_fresh a k v) by (eapply dict_wf_app_fresh; eauto).
    rewrite IH; rewrite <- app_assoc; [reflexivity|assumption].
Qed.

(** X13: walking reaches a dict at any depth: with both flags on, putting
    the input inside single-entry dicts under unknown keys, however many,
    does not change the outcome of [resolve]; nor does putting it alone in
    a list or a tuple under an unknown key. *)
Theorem composite_unknown_wrappers
  (get_init_params : type_desc -> list (string * type_desc)) (self : UD.t)
  (ks : list value) (data : dict) :
  UD.ignore_unknown_fields self = true ->
  UD.walk_unknown_fields self = true ->
  (forall k, In k ks ->
             UD.lookup_param (get_init_params (UD.cls self)) k = None) ->
  UD.resolve get_init_params self (wrap_in ks data)
  = UD.resolve get_init_params self data
  /\ (forall k,
        In k ks ->
        UD.resolve get_init_params self [(k, VList [VDict data])]
        = UD.resolve get_init_params self data
        /\ UD.resolve get_init_params self [(k, VTuple [VDict data])]
           = UD.resolve get_init_params self data).
Proof.
  intros Hig Hwalk Hks.
  assert (Merge : forall v,
             (found <- UD._resolve get_init_params self (UD.cls self) v ;;
              Ok (dict_update [] found))
             = UD._resolve get_init_params self (UD.cls self) v).
  { intros v.
    destruct (UD._resolve get_init_params self (UD.cls self) v) as [f|e] eqn:E;
      simpl; [|reflexivity].
    f_equal. apply (dict_update_fresh [] f). simpl.
    eapply _resolve_wf; eauto. }
  assert (Step : forall k value inner,
             UD.lookup_param (get_init_params (UD.cls self)) k = None ->
             value = VDict inner \/ value = VList [VDict inner]
             \/ value = VTuple [VDict inner] ->
             UD._resolve get_init_params self (UD.cls self)
               (VDict [(k, value)])
             = UD._resolve get_init_params self (UD.cls self) (VDict inner)).
  { intros k value inner Hk Hv. pose proof (Merge (VDict inner)) as M.
    rewrite (_resolve_dict _ _ _ [_]).
    remember (UD._resolve get_init_params self (UD.cls self)) as R.
    destruct Hv as [->|[->| ->]]; simpl; rewrite Hk, Hig, Hwalk; simpl;
      destruct (R (VDict inner)); simpl in *; congruence. }
  split.
  - unfold UD.resolve. f_equal.
    induction ks as [|k ks IH]; cbn [wrap_in]; [reflexivity|].
    rewrite (Step k _ (wrap_in ks data)); auto.
    + apply IH. intros k' Hk'. apply Hks. now right.
    + apply Hks. now left.
  - intros k Hk. unfold UD.resolve.
    split; f_equal; apply Step; auto.
Qed.

Lemma composite_unknown_wrappers_witness :
  UD.resolve example_init_params (UD.__init__ Account int_dispatcher true true)
    (wrap_in [VStr "a"; VStr "b"] [(VStr "age", VStr "12")])
  = UD.resolve example_init_params
      (UD.__init__ Account int_dispatcher true true) [(VStr "age", VStr "12")].
Proof.
  apply (composite_unknown_wrappers example_init_params
           (UD.__init__ Account int_dispatcher true true)
           [VStr "a"; VStr "b"] [(VStr "age", VStr "12")] eq_refl eq_refl).
  intros k [<-|[<-|[]]]; reflexivity.
Defined.

Lemma walk_items_no_dict (recur : value -> result dict) (xs : list value)
  (args : dict) :
  forallb (fun x => negb (UD.isinstance_dict x)) xs = true ->
  UD.walk_items recur xs args = Ok args.
Proof.
  induction xs as [|x xs IH]; simpl; [reflexivity|].
  rewrite andb_true_iff. intros [Hx Hxs].
  destruct (UD.isinstance_dict x); [discriminate|now apply IH].
Qed.

(** X14: walking looks one level into a sequence only.  With both flags
    on, an unknown field whose value is no dict and, when a list, set or
    tuple, has no dict among its items, can be taken out of the input
    without changing the outcome of [resolve]; so a dict inside a list that
    is itself inside a list is not searched. *)
Theorem composite_unknown_without_dict
  (get_init_params : type_desc -> list (string * type_desc)) (self : UD.t)
  (pre post : dict) (key value : value) :
  UD.ignore_unknown_fields self = true ->
  UD.walk_unknown_fields self = true ->
  UD.lookup_param (get_init_params (UD.cls self)) key = None ->
  holds_no_dict value = true ->
  UD.resolve get_init_params self (pre ++ (key, value) :: post)
  = UD.resolve get_init_params self (pre ++ post).
Proof.
  intros Hig Hwalk Hkey Hv. unfold UD.resolve. f_equal.
  rewrite !_resolve_dict, !for_items_app.
  destruct (UD.for_items self _ _ pre []) as [args|e]; simpl; [|reflexivity].
  rewrite Hkey, Hig, Hwalk. simpl.
  destruct value; try reflexivity; try discriminate;
    simpl in Hv; now rewrite (walk_items_no_dict _ _ _ Hv).
Qed.

Lemma composite_unknown_without_dict_witness :
  UD.resolve example_init_params (UD.__init__ Account int_dispatcher true true)
    ([] ++ (VStr "deep", VList [VList [VDict [(VStr "age", VStr "7")]]])
        :: [(VStr "age", VStr "12")])
  = UD.resolve example_init_params
      (UD.__init__ Account int_dispatcher true true)
      ([] ++ [(VStr "age", VStr "12")]).
Proof.
  apply (composite_unknown_without_dict example_init_params
           (UD.__init__ Account int_dispatcher true true));
    reflexivity.
Defined.

(** ** The order of the entries *)

Lemma dict_wf_perm (d d' : dict) :
  Permutation d d' ->
  dict_wf d ->
  dict_wf d' /\ forall k, dict_get d k = dict_get d' k.
Proof.
  induction 1 as [ | [kx vx] l l' _ IH | [kx vx] [ky vy] l | l l' l'' _ IH1 _ IH2 ].
  - auto.
  - simpl. intros [Hk Hl]. destruct (IH Hl) as [Hl' Hget].
    split; [split; [now rewrite <- Hget|assumption]|].
    intros k. now rewrite Hget.
  - simpl. intros [Hy [Hx Hl]].
    revert Hy. destruct (py_eq kx ky) eqn:Exy; [discriminate|intros Hy].
    split.
    + rewrite py_eq_sym, Exy. auto.
    + intros k. destruct (py_eq ky k) eqn:Ey, (py_eq kx k) eqn:Ex;
        try reflexivity.
      rewrite (py_eq_trans kx k ky) in Exy; [discriminate|assumption|].
      now rewrite py_eq_sym.
  - intros H. destruct (IH1 H) as [H' G1]. destruct (IH2 H') as [H'' G2].
    split; [assumption|]. intros k. now rewrite G1, G2.
Qed.

Lemma dict_get_none_keys (d d' : dict) (k : value) :
  map fst d = map fst d' -> dict_get d k = None -> dict_get d' k = None.
Proof.
  revert d'. induction d as [|[k0 v0] d IH]; intros [|[k1 v1] d']; simpl;
    try discriminate; [reflexivity|].
  intros [= <- Hm]. destruct (py_eq k0 k); [discriminate|]. now apply IH.
Qed.

Lemma dict_wf_keys (d d' : dict) :
  map fst d = map fst d' -> dict_wf d -> dict_wf d'.
Proof.
  revert d'. induction d as [|[k0 v0] d IH]; intros [|[k1 v1] d']; simpl;
    try discriminate; [auto|].
  intros [= <- Hm] [Hk Hd]. split; [|now apply IH].
  now apply (dict_get_none_keys d d').
Qed.

Lemma map_fst_combine {A B C : Type} (l : list (A * C)) (rs : list B) :
  List.length l = List.length rs -> map fst (combine (map fst l) rs) = map fst l.
Proof.
  revert rs. induction l as [|x l IH]; intros [|r rs]; simpl;
    try discriminate; [reflexivity|].
  intros [= H]. now rewrite IH.
Qed.

Lemma resolved_entries_perm (R : value * value -> value -> Prop)
  (data data' : dict) :
  Permutation data data' ->
  forall rs,
    Forall2 R data rs ->
    exists rs',
      Forall2 R data' rs'
      /\ Permutation (combine (map fst data) rs) (combine (map fst data') rs').
Proof.
  induction 1 as [ | x l l' _ IH | y x l | l l' l'' _ IH1 _ IH2 ]; intros rs H.
  - inversion H. exists []. split; constructor.
  - inversion H as [|? r ? rs0 Hx Hl]; subst.
    destruct (IH _ Hl) as (rs' & H' & P). exists (r :: rs').
    split; [now constructor|]. simpl. now constructor.
  - inversion H as [|? ry ? rs0 Hy Hl0]; subst.
    inversion Hl0 as [|? rx ? rs1 Hx Hl]; subst.
    exists (rx :: ry :: rs1). split; [now repeat constructor|].
    simpl. apply perm_swap.
  - destruct (IH1 _ H) as (rs' & H' & P1).
    destruct (IH2 _ H') as (rs'' & H'' & P2).
    exists rs''. split; [assumption|]. eapply perm_trans; eauto.
Qed.

(** X15: when every key of the input is a parameter and the dispatcher
    resolves every value, the order of the entries of the input does not
    matter: for an input and any rearrangement of it, [resolve] returns two
    field maps with the same entries, so that every key has the same value
    in both. *)
Theorem composite_entry_order_irrelevant
  (get_init_params : type_desc -> list (string * type_desc)) (self : UD.t)
  (data data' : dict) (rs : list value) :
  dict_wf data ->
  Permutation data data' ->
  Forall2 (fun kv r =>
             exists ty,
               UD.lookup_param (get_init_params (UD.cls self)) (fst kv)
               = Some ty /\
               UD.func self ty (snd kv) = Ok r) data rs ->
  exists args args',
    UD.resolve get_init_params self data = Ok (VDict args)
    /\ UD.resolve get_init_params self data' = Ok (VDict args')
    /\ Permutation args args'
    /\ forall k, dict_get args k = dict_get args' k.
Proof.
  intros Hwf Hp H.
  destruct (resolved_entries_perm _ _ _ Hp _ H) as (rs' & H' & P).
  assert (W : dict_wf (combine (map fst data) rs)).
  { apply (dict_wf_keys data); [|assumption].
    symmetry. apply map_fst_combine. eapply Forall2_length; eauto. }
  destruct (dict_wf_perm _ _ P W) as [W' G].
  exists (combine (map fst data) rs), (combine (map fst data') rs').
  split; [|split; [|split; assumption]].
  - unfold UD.resolve. rewrite _resolve_dict.
    rewrite (for_items_expected _ _ _ _ rs _ H). simpl.
    now rewrite (dict_update_fresh [] _ W).
  - unfold UD.resolve. rewrite _resolve_dict.
    rewrite (for_items_expected _ _ _ _ rs' _ H'). simpl.
    now rewrite (dict_update_fresh [] _ W').
Qed.

Lemma composite_entry_order_irrelevant_witness :
  exists args args',
    UD.resolve (fun _ => [("age", int_type); ("name", str_type)])
      (UD.__init__ Person int_dispatcher false false)
      [(VStr "age", VStr "12"); (VStr "name", VStr "x")] = Ok (VDict args)
    /\ UD.resolve (fun _ => [("age", int_type); ("name", str_type)])
         (UD.__init__ Person int_dispatcher false false)
         [(VStr "name", VStr "x"); (VStr "age", VStr "12")] = Ok (VDict args')
    /\ Permutation args args'
    /\ forall k, dict_get args k = dict_get args' k.
Proof.
  apply (composite_entry_order_irrelevant
           (fun _ => [("age", int_type); ("name", str_type)])
           (UD.__init__ Person int_dispatcher false false)
           [(VStr "age", VStr "12"); (VStr "name", VStr "x")]
           [(VStr "name", VStr "x"); (VStr "age", VStr "12")]
           [VInt 12; VStr "x"]).
  - simpl. auto.
  - apply perm_swap.
  - constructor; [|constructor; [|constructor]].
    + exists int_type. split; reflexivity.
    + exists str_type. split; reflexivity.
Defined.

(** X16: with both flags on, the order does matter between a field given
    at the top level and the same field found while walking, the one met
    later winning: a wrapper that comes after the field replaces its value,
    a wrapper that comes before it does not. *)
Theorem composite_walk_order_matters
  (get_init_params : type_desc -> list (string * type_desc)) (self : UD.t)
  (p : string) (ty : type_desc) (w v1 v2 r1 r2 : value) :
  UD.ignore_unknown_fields self = true ->
  UD.walk_unknown_fields self = true ->
  UD.lookup_param (get_init_params (UD.cls self)) (VStr p) = Some ty ->
  UD.lookup_param (get_init_params (UD.cls self)) w = None ->
  UD.func self ty v1 = Ok r1 ->
  UD.func self ty v2 = Ok r2 ->
  UD.resolve get_init_params self
    [(VStr p, v1); (w, VDict [(VStr p, v2)])]
  = Ok (VDict [(VStr p, r2)])
  /\ UD.resolve get_init_params self
       [(w, VDict [(VStr p, v2)]); (VStr p, v1)]
     = Ok (VDict [(VStr p, r1)]).
Proof.
  intros Hig Hwalk Hp Hw H1 H2.
  assert (Inner : UD._resolve get_init_params self (UD.cls self)
                    (VDict [(VStr p, v2)]) = Ok [(VStr p, r2)]).
  { rewrite _resolve_dict. cbn [UD.for_items]. rewrite Hp, H2. reflexivity. }
  unfold UD.resolve. split.
  - rewrite (_resolve_dict _ _ _ [_; _]).
    remember (UD._resolve get_init_params self (UD.cls self)) as R.
    cbn [UD.for_items]. rewrite Hp, H1, Hw, Hig, Hwalk. simpl.
    rewrite Inner. simpl. now rewrite String.eqb_refl.
  - rewrite (_resolve_dict _ _ _ [_; _]).
    remember (UD._resolve get_init_params self (UD.cls self)) as R.
    cbn [UD.for_items]. rewrite Hp, H1, Hw, Hig, Hwalk. simpl.
    rewrite Inner. simpl. now rewrite String.eqb_refl.
Qed.

Lemma composite_walk_order_matters_witness :
  UD.resolve example_init_params (UD.__init__ Account int_dispatcher true true)
    [(VStr "age", VStr "1"); (VStr "w", VDict [(VStr "age", VStr "2")])]
  = Ok (VDict [(VStr "age", VInt 2)])
  /\ UD.resolve example_init_params
       (UD.__init__ Account int_dispatcher true true)
       [(VStr "w", VDict [(VStr "age", VStr "2")]); (VStr "age", VStr "1")]
     = Ok (VDict [(VStr "age", VInt 1)]).
Proof.
  apply (composite_walk_order_matters example_init_params
           (UD.__init__ Account int_dispatcher true true)
           "age" int_type); reflexivity.
Defined.

Lemma Forall2_permutation {A B : Type} (R : A -> B -> Prop) (l l' : list A) :
  Permutation l l' ->
  forall rs,
    Forall2 R l rs ->
    exists rs', Forall2 R l' rs' /\ Permutation rs rs'.
Proof.
  induction 1 as [ | x l l' _ IH | x y l | l l' l'' _ IH1 _ IH2 ]; intros rs H.
  - inversion H. exists []. split; constructor.
  - inversion H as [|? r ? rs0 Hx Hl]; subst.
    destruct (IH _ Hl) as (rs' & H' & P). exists (r :: rs').
    split; now constructor.
  - inversion H as [|? ry ? rs0 Hy Hl0]; subst.
    inversion Hl0 as [|? rx ? rs1 Hx Hl]; subst.
    exists (rx :: ry :: rs1). split; [now repeat constructor|apply perm_swap].
  - destruct (IH1 _ H) as (rs' & H' & P1).
    destruct (IH2 _ H') as (rs'' & H'' & P2).
    exists rs''. split; [assumption|]. eapply perm_trans; eauto.
Qed.

(** X17: in the dict delegate the order of the entries matters only when
    resolved keys collide: when the entries are resolved to hashable keys
    that are pairwise different, [resolve] returns, for the input and for
    any rearrangement of it, two dicts with the same entries, so that every
    key has the same value in both. *)
Theorem dict_resolve_order_irrelevant (self : FD.t) (K V : type_desc)
  (rest : list type_desc) (data data' rs : dict) :
  ty_args (FD.cls self) = K :: V :: rest ->
  Permutation data data' ->
  Forall2 (fun kv r => FD.func self K (fst kv) = Ok (fst r) /\
                       FD.func self V (snd kv) = Ok (snd r)) data rs ->
  forallb (fun r => hashable (fst r)) rs = true ->
  dict_wf rs ->
  exists d d',
    DictArgBuilderDelegate.resolve self data = Ok (VDict d)
    /\ DictArgBuilderDelegate.resolve self data' = Ok (VDict d')
    /\ Permutation d d'
    /\ forall k, dict_get d k = dict_get d' k.
Proof.
  intros Hargs Hp H Hh W.
  destruct (Forall2_permutation _ _ _ Hp _ H) as (rs' & H' & P).
  destruct (dict_wf_perm _ _ P W) as [W' G].
  assert (Hh' : forallb (fun r => hashable (fst r)) rs' = true).
  { apply forallb_forall. intros r Hr.
    apply (Permutation_in _ (Permutation_sym P)) in Hr.
    now apply (proj1 (forallb_forall _ _) Hh). }
  exists rs, rs'. split; [|split; [|split; assumption]].
  - unfold DictArgBuilderDelegate.resolve. rewrite Hargs. simpl.
    rewrite (dict_comprehension_ok _ _ _ _ [] H Hh). simpl.
    now rewrite (dict_update_fresh [] _ W).
  - unfold DictArgBuilderDelegate.resolve. rewrite Hargs. simpl.
    rewrite (dict_comprehension_ok _ _ _ _ [] H' Hh'). simpl.
    now rewrite (dict_update_fresh [] _ W').
Qed.

Lemma dict_resolve_order_irrelevant_witness :
  exists d d',
    DictArgBuilderDelegate.resolve
      (FD.__init__ (TyCon "Dict" [int_type; str_type]) int_dispatcher)
      [(VStr "1", VStr "a"); (VStr "2", VStr "b")] = Ok (VDict d)
    /\ DictArgBuilderDelegate.resolve
         (FD.__init__ (TyCon "Dict" [int_type; str_type]) int_dispatcher)
         [(VStr "2", VStr "b"); (VStr "1", VStr "a")] = Ok (VDict d')
    /\ Permutation d d'
    /\ forall k, dict_get d k = dict_get d' k.
Proof.
  apply (dict_resolve_order_irrelevant
           (FD.__init__ (TyCon "Dict" [int_type; str_type]) int_dispatcher)
           int_type str_type []
           [(VStr "1", VStr "a"); (VStr "2", VStr "b")]
           [(VStr "2", VStr "b"); (VStr "1", VStr "a")]
           [(VInt 1, VStr "a"); (VInt 2, VStr "b")]).
  - reflexivity.
  - apply perm_swap.
  - repeat constructor.
  - reflexivity.
  - simpl. auto.
Defined.
